(** * verl: checkpoint manager and reward-model dataset helpers

    A shallow embedding of

    - [verl/utils/dataset/rm_dataset.py]: [download_files_distributed]
      and [RMDataset._pad_to_length];
    - [verl/workers/checkpoint/checkpoint_manager.py]:
      [BaseCheckpointManager] with [load_checkpoint],
      [remove_previous_save_local_path], [local_mkdir], [get_rng_state]
      and [load_rng_state].

    Python integers are [Z], 1-D integer tensors are [list Z], dictionaries
    are [gmap string _], and code that has effects runs in a small
    state-and-exception monad over the part of the world it touches. *)

From Stdlib Require Import ZArith Ascii String List Lia.
From stdpp Require Import base gmap strings list fin_maps sets relations.

Open Scope string_scope.
Open Scope list_scope.
Open Scope Z_scope.

(** ** Exceptions and outcomes *)

(** The Python exception classes the modelled code can raise, either by a
    [raise] statement of its own or from a library call. *)
Inductive exn : Type :=
  | KeyError (key : string)
  | TypeError
  | NotImplementedError
  | FileExistsError
  | IsADirectoryError.

Definition exn_class (e : exn) : string :=
  match e with
  | KeyError _ => "KeyError"
  | TypeError => "TypeError"
  | NotImplementedError => "NotImplementedError"
  | FileExistsError => "FileExistsError"
  | IsADirectoryError => "IsADirectoryError"
  end.

(** What a call does: it returns a value, raises, or never comes back
    (a blocking acquire with no timeout). *)
Inductive outcome (A : Type) : Type :=
  | Return (a : A)
  | Raises (e : exn)
  | Hangs.
Arguments Return {A} a.
Arguments Raises {A} e.
Arguments Hangs {A}.

Definition returned {A} (o : outcome A) : bool :=
  match o with Return _ => true | _ => false end.

(** State-and-exception monad: a computation over a world [W]. *)
Definition M (W A : Type) : Type := W -> outcome A * W.

Definition ret {W A} (a : A) : M W A := fun w => (Return a, w).
Definition raise {W A} (e : exn) : M W A := fun w => (Raises e, w).
Definition bind {W A B} (m : M W A) (k : A -> M W B) : M W B :=
  fun w =>
    match m w with
    | (Return a, w') => k a w'
    | (Raises e, w') => (Raises e, w')
    | (Hangs, w') => (Hangs, w')
    end.
Definition gets {W A} (f : W -> A) : M W A := fun w => (Return (f w), w).
Definition modify {W} (f : W -> W) : M W unit := fun w => (Return tt, f w).

Notation "'do' x <- m ; k" := (bind m (fun x => k))
  (at level 10, x name, m at level 100, k at level 200,
   format "'[v' 'do'  x  <-  m ; '/' k ']'").
Notation "'exec' m ; k" := (bind m (fun _ => k))
  (at level 10, m at level 100, k at level 200,
   format "'[v' 'exec'  m ; '/' k ']'").

(** [d[k]] on a dictionary. *)
Definition getitem {W V} (d : gmap string V) (k : string) : M W V :=
  match d !! k with
  | Some v => ret v
  | None => raise (KeyError k)
  end.

(** ** [RMDataset._pad_to_length] (rm_dataset.py, lines 99-112) *)

Module RMDataset.

(** A 1-D integer tensor. *)
Definition tensor := list Z.

(** [tensor.shape[-1]] of a 1-D tensor. *)
Definition shape_last (t : tensor) : Z := Z.of_nat (length t).

(** [torch.zeros(size=(n,), dtype=...)]; the code only calls it with
    [n > 0]. *)
Definition torch_zeros (n : Z) : tensor := replicate (Z.to_nat n) 0.

(** [torch.cat((a, b), dim=-1)] on 1-D tensors. *)
Definition torch_cat (a b : tensor) : tensor := a ++ b.

(** Python's [t[:n]]: a negative bound counts from the end, and the
    bound is clamped to the tensor. *)
Definition slice_to (n : Z) (t : tensor) : tensor :=
  if 0 <=? n then take (Z.to_nat n) t
  else take (Z.to_nat (shape_last t + n)) t.

Definition _pad_to_length (max_length : Z) (input_ids attention_mask : tensor)
  : tensor * tensor :=
  let curr_length := shape_last input_ids in
  if curr_length <? max_length then
    (torch_cat input_ids (torch_zeros (max_length - curr_length)),
     torch_cat attention_mask (torch_zeros (max_length - curr_length)))
  else if curr_length >? max_length then
    (slice_to max_length input_ids, slice_to max_length attention_mask)
  else
    (input_ids, attention_mask).

(** The first part of what the specification says of [_pad_to_length],
    at one input: both results have length [max_length]. *)
Definition pads_exactly (max_length : Z) (input_ids attention_mask : tensor)
  : Prop :=
  let '(ids, mask) := _pad_to_length max_length input_ids attention_mask in
  shape_last ids = max_length ∧ shape_last mask = max_length.

End RMDataset.

(** ** [download_files_distributed] (rm_dataset.py, lines 28-38) *)

Module Distributed.

(** What [torch.distributed] tells the calling process:
    [torch.distributed.is_initialized()] and, in an initialised group,
    [torch.distributed.get_rank()]. *)
Record dist : Type := {
  is_initialized : bool;
  get_rank : Z;
}.

(** The two things the function does to the outside: it calls
    [download_fn()] and it enters [torch.distributed.barrier()]. *)
Inductive instr : Type :=
  | Call
  | Barrier.

Global Instance instr_eq_dec : EqDecision instr.
Proof. solve_decision. Defined.

(** The function body, as the sequence of calls the process makes
    before it returns. *)
Definition download_files_distributed (d : dist) : list instr :=
  if is_initialized d then
    (if get_rank d =? 0 then [Call] else []) ++ [Barrier]
  else
    [Call].

(** One process of the job: still running the rest of the body, stopped
    by an exception that [download_fn] raised, or inside a
    [download_fn] that does not come back. An empty body means the call
    has returned. *)
Inductive proc : Type :=
  | Running (code : list instr)
  | Crashed (e : exn)
  | Stuck.

Definition has_returned (p : proc) : bool :=
  match p with Running [] => true | _ => false end.

(** A process leaves the barrier with the rest of its body. *)
Definition pass_barrier (p : proc) : option proc :=
  match p with
  | Running (Barrier :: code) => Some (Running code)
  | _ => None
  end.

Section Job.
(** The state the action works on is shared by all ranks (a file
    system, a counter), and [download_fn] is any action on it. *)
Context {S : Type}.
Variable download_fn : M S unit.

(** The job: one process per rank over the shared state; [calls]
    counts how often [download_fn] has been entered. *)
Record config : Type := {
  procs : list proc;
  shared : S;
  calls : nat;
}.

Definition after_call (o : outcome unit) (code : list instr) : proc :=
  match o with
  | Return _ => Running code
  | Raises e => Crashed e
  | Hangs => Stuck
  end.

(** Interleaving semantics. Any process may take its next call; the
    barrier is collective: it opens only when every process of the
    group is waiting in it, and then for all of them. *)
Inductive step : config -> config -> Prop :=
  | step_call (c : config) (r : nat) (code : list instr) :
      procs c !! r = Some (Running (Call :: code)) ->
      step c {| procs := <[r := after_call (download_fn (shared c)).1 code]> (procs c);
                shared := (download_fn (shared c)).2;
                calls := Datatypes.S (calls c) |}
  | step_barrier (c : config) (ps : list proc) :
      mapM pass_barrier (procs c) = Some ps ->
      procs c <> [] ->
      step c {| procs := ps; shared := shared c; calls := calls c |}.

(** A group of [n] ranks, every rank entering the function. *)
Definition group_procs (n : nat) : list proc :=
  (fun r => Running (download_files_distributed
     {| is_initialized := true; get_rank := Z.of_nat r |})) <$> seq 0 n.

Definition group_start (n : nat) (s0 : S) : config :=
  {| procs := group_procs n; shared := s0; calls := 0 |}.

(** No process group: the sole process; [get_rank] is never asked. *)
Definition single_start (s0 : S) : config :=
  {| procs := [Running (download_files_distributed
                          {| is_initialized := false; get_rank := 0 |})];
     shared := s0; calls := 0 |}.

Definition reachable (c0 c : config) : Prop := rtc step c0 c.

Definition all_returned (c : config) : Prop :=
  Forall (fun p => has_returned p = true) (procs c).
(** The configurations a group of [m + 1] ranks started on [s0] passes
    through: nobody has moved, rank 0 has made its call, the barrier
    has opened. *)
Definition before_call (s0 : S) (m : nat) : config :=
  {| procs := Running [Call; Barrier] :: replicate m (Running [Barrier]);
     shared := s0; calls := 0 |}.
Definition at_barrier (s0 : S) (m : nat) : config :=
  {| procs := after_call (download_fn s0).1 [Barrier]
              :: replicate m (Running [Barrier]);
     shared := (download_fn s0).2; calls := 1 |}.
Definition past_barrier (s0 : S) (m : nat) : config :=
  {| procs := replicate (Datatypes.S m) (Running []);
     shared := (download_fn s0).2; calls := 1 |}.

(** Without a process group: the sole process after its call. *)
Definition single_done (s0 : S) : config :=
  {| procs := [after_call (download_fn s0).1 []];
     shared := (download_fn s0).2; calls := 1 |}.
End Job.

Arguments config : clear implicits.

End Distributed.

(** ** The random-number generators of torch, numpy and [random] *)

Module Rng.

(** The state of one generator is an opaque block of words. *)
Definition rng_blob := list Z.

(** The four generators the code touches: torch's CPU generator, torch's
    generator of the current CUDA device, numpy's global generator and
    the interpreter's [random] module. *)
Inductive stream : Type :=
  | TorchCpu
  | TorchCuda
  | Numpy
  | Random.

Global Instance stream_eq_dec : EqDecision stream.
Proof. solve_decision. Defined.

(** The generators of the process. A CUDA device is taken to be
    present, so that [torch.cuda] has a generator to read and set. *)
Record rng_world : Type := {
  torch_cpu : rng_blob;
  torch_cuda : rng_blob;
  numpy_random : rng_blob;
  python_random : rng_blob;
}.

(** The objects the four getters return. Each is a snapshot (a copied
    tensor or an immutable tuple), so it does not alias the generator. *)
Inductive py_value : Type :=
  | TorchCpuState (b : rng_blob)
  | TorchCudaState (b : rng_blob)
  | NumpyState (b : rng_blob)
  | RandomState (b : rng_blob).

(** [torch.get_rng_state()] and its siblings. *)
Definition torch_get_rng_state : M rng_world py_value :=
  gets (fun w => TorchCpuState (torch_cpu w)).
Definition torch_cuda_get_rng_state : M rng_world py_value :=
  gets (fun w => TorchCudaState (torch_cuda w)).
Definition np_random_get_state : M rng_world py_value :=
  gets (fun w => NumpyState (numpy_random w)).
Definition random_getstate : M rng_world py_value :=
  gets (fun w => RandomState (python_random w)).

(** The setters install a state of their own generator; handed any
    other object they raise ([TypeError] stands for the library's
    error). *)
Definition torch_set_rng_state (v : py_value) : M rng_world unit :=
  match v with
  | TorchCpuState b =>
      modify (fun w => {| torch_cpu := b; torch_cuda := torch_cuda w;
                          numpy_random := numpy_random w;
                          python_random := python_random w |})
  | _ => raise TypeError
  end.
Definition torch_cuda_set_rng_state (v : py_value) : M rng_world unit :=
  match v with
  | TorchCudaState b =>
      modify (fun w => {| torch_cpu := torch_cpu w; torch_cuda := b;
                          numpy_random := numpy_random w;
                          python_random := python_random w |})
  | _ => raise TypeError
  end.
Definition np_random_set_state (v : py_value) : M rng_world unit :=
  match v with
  | NumpyState b =>
      modify (fun w => {| torch_cpu := torch_cpu w; torch_cuda := torch_cuda w;
                          numpy_random := b;
                          python_random := python_random w |})
  | _ => raise TypeError
  end.
Definition random_setstate (v : py_value) : M rng_world unit :=
  match v with
  | RandomState b =>
      modify (fun w => {| torch_cpu := torch_cpu w; torch_cuda := torch_cuda w;
                          numpy_random := numpy_random w;
                          python_random := b |})
  | _ => raise TypeError
  end.

Definition stream_key (s : stream) : string :=
  match s with
  | TorchCpu => "cpu"
  | TorchCuda => "cuda"
  | Numpy => "numpy"
  | Random => "random"
  end.

Definition kind_of (v : py_value) : stream :=
  match v with
  | TorchCpuState _ => TorchCpu
  | TorchCudaState _ => TorchCuda
  | NumpyState _ => Numpy
  | RandomState _ => Random
  end.

(** Every entry present under a stream's key is a state of that
    stream. *)
Definition well_kinded (rng_state : gmap string py_value) : Prop :=
  ∀ s v, rng_state !! stream_key s = Some v -> kind_of v = s.

Section Draws.
(** The generators themselves are library code: [next s b] is the
    number generator [s] produces in state [b], with its next state. *)
Variable next : stream -> rng_blob -> Z * rng_blob.

Definition stream_state (s : stream) (w : rng_world) : rng_blob :=
  match s with
  | TorchCpu => torch_cpu w
  | TorchCuda => torch_cuda w
  | Numpy => numpy_random w
  | Random => python_random w
  end.

Definition set_stream_state (s : stream) (b : rng_blob) (w : rng_world)
  : rng_world :=
  match s with
  | TorchCpu => {| torch_cpu := b; torch_cuda := torch_cuda w;
                   numpy_random := numpy_random w;
                   python_random := python_random w |}
  | TorchCuda => {| torch_cpu := torch_cpu w; torch_cuda := b;
                    numpy_random := numpy_random w;
                    python_random := python_random w |}
  | Numpy => {| torch_cpu := torch_cpu w; torch_cuda := torch_cuda w;
                numpy_random := b; python_random := python_random w |}
  | Random => {| torch_cpu := torch_cpu w; torch_cuda := torch_cuda w;
                 numpy_random := numpy_random w; python_random := b |}
  end.

(** One draw from stream [s]. *)
Definition draw (s : stream) : M rng_world Z :=
  fun w =>
    let '(x, b) := next s (stream_state s w) in
    (Return x, set_stream_state s b w).

(** A run of draws, each from the stream the schedule names. *)
Fixpoint draws (schedule : list stream) : M rng_world (list Z) :=
  match schedule with
  | [] => ret []
  | s :: rest =>
      do x <- draw s;
      do xs <- draws rest;
      ret (x :: xs)
  end.
End Draws.

End Rng.

(** ** Paths, the file system and file locks *)

Module Os.

(** [os.path.isabs] on POSIX. *)
Definition isabs (p : string) : bool := String.prefix "/" p.

Fixpoint ends_with_sep (p : string) : bool :=
  match p with
  | EmptyString => false
  | String c EmptyString => bool_decide (c = "/"%char)
  | String _ rest => ends_with_sep rest
  end.

(** [os.path.join(a, b)] on POSIX: an absolute [b] replaces [a]. *)
Definition path_join (a b : string) : string :=
  if isabs b then b
  else if bool_decide (a = "") || ends_with_sep a then a +:+ b
  else a +:+ "/" +:+ b.

(** What the process gets from its environment:
    [tempfile.gettempdir()], the value of
    [os.path.dirname(os.path.abspath(__file__))], [os.getcwd()], and the
    library function [os.path.normpath]. *)
Record os_env : Type := {
  gettempdir : string;
  package_dir : string;
  getcwd : string;
  normpath : string -> string;
}.

(** [os.path.abspath]. *)
Definition abspath (env : os_env) (p : string) : string :=
  normpath env (if isabs p then p else path_join (getcwd env) p).

Inductive node : Type :=
  | RegularFile
  | Directory.

Global Instance node_eq_dec : EqDecision node.
Proof. solve_decision. Defined.

(** The part of the machine the checkpoint code acts on: what exists at
    which path, which lock files are locked (by any process), and what
    was printed. Ancestor directories are taken to exist and be
    writable. *)
Record fs_world : Type := {
  nodes : gmap string node;
  held : gset string;
  stdout : list string;
}.

Definition set_nodes (f : gmap string node -> gmap string node)
  (w : fs_world) : fs_world :=
  {| nodes := f (nodes w); held := held w; stdout := stdout w |}.
Definition set_held (f : gset string -> gset string) (w : fs_world)
  : fs_world :=
  {| nodes := nodes w; held := f (held w); stdout := stdout w |}.

(** [print(line)]. *)
Definition print (line : string) : M fs_world unit :=
  modify (fun w => {| nodes := nodes w; held := held w;
                      stdout := stdout w ++ [line] |}).

(** [os.path.exists]. *)
Definition path_exists (p : string) : M fs_world bool :=
  gets (fun w => bool_decide (is_Some (nodes w !! p))).

(** [os.makedirs(p, exist_ok=...)]: creates the directory; when something
    is already at [p] it raises [FileExistsError], unless [exist_ok] is
    set and that something is a directory. *)
Definition makedirs (p : string) (exist_ok : bool) : M fs_world unit :=
  fun w =>
    match nodes w !! p with
    | None => (Return tt, set_nodes (insert p Directory) w)
    | Some Directory =>
        if exist_ok then (Return tt, w) else (Raises FileExistsError, w)
    | Some RegularFile => (Raises FileExistsError, w)
    end.

(** Entering [with FileLock(p)] (filelock's default timeout: wait for
    ever). The lock file is opened at [p] itself with [O_CREAT]: opening
    a directory fails, an absent file is created; then the lock is
    taken, and the process waits while another holder has it. *)
Definition filelock_acquire (p : string) : M fs_world unit :=
  fun w =>
    match nodes w !! p with
    | Some Directory => (Raises IsADirectoryError, w)
    | _ =>
        let w' := set_nodes (insert p RegularFile) w in
        if bool_decide (p ∈ held w) then (Hangs, w')
        else (Return tt, set_held (union {[p]}) w')
    end.

(** Leaving the [with] block unlocks; the lock file stays. *)
Definition filelock_release (p : string) (w : fs_world) : fs_world :=
  set_held (fun h => h ∖ {[p]}) w.

(** [with FileLock(p): body]: the lock is released when the body returns
    and when it raises. *)
Definition with_FileLock {A} (p : string) (body : M fs_world A)
  : M fs_world A :=
  fun w =>
    match filelock_acquire p w with
    | (Return _, w1) =>
        match body w1 with
        | (Hangs, w2) => (Hangs, w2)
        | (o, w2) => (o, filelock_release p w2)
        end
    | (Raises e, w1) => (Raises e, w1)
    | (Hangs, w1) => (Hangs, w1)
    end.

(** [k] is [p] or lies below it. *)
Definition in_tree (p k : string) : bool :=
  bool_decide (k = p) || String.prefix (p +:+ "/") k.

(** An entry cannot be deleted when the system refuses it ([refused]) or
    when something at or below it cannot be deleted. *)
Definition undeletable (refused : string -> bool) (m : gmap string node)
  (k : string) : bool :=
  bool_decide (set_Exists
    (fun k' => in_tree k k' = true ∧ refused k' = true) (dom m)).

(** [shutil.rmtree(p, ignore_errors=True)], the only way the code calls
    it: deletes what it can of the tree at [p] and swallows every error
    (nothing at [p], [p] not a directory, an entry that cannot be
    deleted). *)
Definition rmtree_ignore_errors (refused : string -> bool) (p : string)
  : M fs_world unit :=
  fun w =>
    match nodes w !! p with
    | Some Directory =>
        (Return tt,
         set_nodes (fun m =>
           filter (fun kv : string * node =>
                     in_tree p kv.1 = false ∨ undeletable refused m kv.1 = true)
                  m) w)
    | _ => (Return tt, w)
    end.

End Os.

(** ** [BaseCheckpointManager] (checkpoint_manager.py) *)

Module BaseCheckpointManager.
Import Os Rng.

(** The fields of the manager the modelled methods read; the model,
    optimizer, scheduler and tokenizer are opaque to them. *)
Record manager : Type := {
  previous_global_step : option Z;
  previous_save_local_path : option string;
  rank : Z;
}.

(** [__init__] (lines 31-40). *)
Definition init (rank : Z) : manager :=
  {| previous_global_step := None;
     previous_save_local_path := None;
     rank := rank |}.

(** [load_checkpoint(self, *args, **kwargs)] (lines 42-43). *)
Definition load_checkpoint {A} (self : manager) (args : list string)
  : M fs_world A :=
  raise NotImplementedError.

(** [save_checkpoint(self, *args, **kwargs)] (lines 45-46). *)
Definition save_checkpoint {A} (self : manager) (args : list string)
  : M fs_world A :=
  raise NotImplementedError.

(** [load_checkpoint] raises an exception of class [cls]. *)
Definition load_fails_with (cls : string) (self : manager)
  (args : list string) (w : fs_world) : Prop :=
  ∃ e w', load_checkpoint (A := unit) self args w = (Raises e, w')
    ∧ exn_class e = cls.

(** Python truth of [self.previous_save_local_path]: [None] and the
    empty string are false. *)
Definition truthy (p : option string) : bool :=
  match p with
  | None => false
  | Some s => negb (bool_decide (s = ""))
  end.

(** [remove_previous_save_local_path] (lines 48-58). [refused] says which
    entries the system will not let [rmtree] delete. *)
Definition remove_previous_save_local_path (env : os_env)
  (refused : string -> bool) (self : manager) : M fs_world unit :=
  if negb (truthy (previous_save_local_path self)) then ret tt
  else
    let abs_path := abspath env (default "" (previous_save_local_path self)) in
    exec print ("Checkpoint manager remove previous save local path: " +:+ abs_path);
    do there <- path_exists abs_path;
    if negb there then ret tt
    else rmtree_ignore_errors refused abs_path.

(** Lines 70-76 of [local_mkdir]: the value of [path] after the
    three-way branch. *)
Definition local_mkdir_path (env : os_env) (path : string)
  (use_temp_dir is_abs : bool) : string :=
  if use_temp_dir then path_join (gettempdir env) (path +:+ ".lock")
  else if is_abs then path
  else path_join (package_dir env) path.

(** [local_mkdir] (lines 60-81). *)
Definition local_mkdir (env : os_env) (path : string)
  (use_temp_dir is_abs : bool) : M fs_world string :=
  let path := local_mkdir_path env path use_temp_dir is_abs in
  exec with_FileLock path (makedirs path true);
  ret path.

(** The directory the specification promises for each mode: the path
    itself, the path under the package root, the path under the scratch
    root. *)
Definition spec_resolved (env : os_env) (path : string)
  (use_temp_dir is_abs : bool) : string :=
  if use_temp_dir then path_join (gettempdir env) path
  else if is_abs then path
  else path_join (package_dir env) path.

(** [get_rng_state] (lines 83-91) and [load_rng_state] (lines 93-98). *)

(** The dictionary display evaluates its four values in the order
    written. *)
Definition get_rng_state : M rng_world (gmap string py_value) :=
  do cpu <- torch_get_rng_state;
  do cuda <- torch_cuda_get_rng_state;
  do numpy <- np_random_get_state;
  do random <- random_getstate;
  ret (<["random" := random]> (<["numpy" := numpy]>
        (<["cuda" := cuda]> (<["cpu" := cpu]> ∅)))).

Definition load_rng_state (rng_state : gmap string py_value)
  : M rng_world unit :=
  do cpu <- getitem rng_state "cpu";
  exec torch_set_rng_state cpu;
  do cuda <- getitem rng_state "cuda";
  exec torch_cuda_set_rng_state cuda;
  do numpy <- getitem rng_state "numpy";
  exec np_random_set_state numpy;
  do random <- getitem rng_state "random";
  random_setstate random.

(** The keys [load_rng_state] subscripts, in the order it does. *)
Definition expected_keys : list string := ["cpu"; "cuda"; "numpy"; "random"].


(** [get_rng_state] returns, without touching the generators, a
    dictionary with exactly the keys [streams]. *)
Definition captures_exactly (streams : gset string) (w : rng_world) : Prop :=
  ∃ c, get_rng_state w = (Return c, w) ∧ dom c = streams.


(** The streams the specification lists for a capsule (process-level,
    vectorized-math-library and accelerator-device generator), under the
    keys the code gives them. *)
Definition spec_streams : gset string := {["random"; "numpy"; "cuda"]}.

End BaseCheckpointManager.

(** ** [RMDataset._download] (rm_dataset.py, lines 71-84) *)

Module PosixPath.

Fixpoint has_sep (p : string) : bool :=
  match p with
  | EmptyString => false
  | String c rest => bool_decide (c = "/"%char) || has_sep rest
  end.

(** [os.path.basename] on POSIX: what follows the last ["/"]. *)
Fixpoint basename (p : string) : string :=
  match p with
  | EmptyString => EmptyString
  | String c rest =>
      if has_sep rest then basename rest
      else if bool_decide (c = "/"%char) then rest
      else p
  end.

End PosixPath.

Module Download.
Import Os Distributed PosixPath.

(** What stops the download: an exception of a file-system call, the
    failed [assert] of [_download_files], or the [RuntimeError] that
    [torch.distributed.barrier] raises on a rank whose peers do not
    arrive. *)
Inductive signal : Type :=
  | Builtin (e : exn)
  | AssertionError
  | RuntimeError.

Inductive result (A : Type) : Type :=
  | Done (a : A)
  | Fails (s : signal)
  | Never.
Arguments Done {A} a.
Arguments Fails {A} s.
Arguments Never {A}.

(** The dataset object's list [self.parquet_files], which the download
    rewrites in place, and the disk. *)
Record dl_world : Type := {
  parquet_files : list string;
  disk : fs_world;
}.

Definition D (A : Type) : Type := dl_world -> result A * dl_world.

Definition dret {A} (a : A) : D A := fun w => (Done a, w).
Definition dbind {A B} (m : D A) (k : A -> D B) : D B :=
  fun w =>
    match m w with
    | (Done a, w') => k a w'
    | (Fails s, w') => (Fails s, w')
    | (Never, w') => (Never, w')
    end.

Notation "'do!' x <- m ; k" := (dbind m (fun x => k))
  (at level 10, x name, m at level 100, k at level 200,
   format "'[v' 'do!'  x  <-  m ; '/' k ']'").
Notation "'exec!' m ; k" := (dbind m (fun _ => k))
  (at level 10, m at level 100, k at level 200,
   format "'[v' 'exec!'  m ; '/' k ']'").

(** A file-system call made from the download. *)
Definition on_disk {A} (m : M fs_world A) : D A :=
  fun w =>
    let keep d := {| parquet_files := parquet_files w; disk := d |} in
    match m (disk w) with
    | (Return a, d) => (Done a, keep d)
    | (Raises e, d) => (Fails (Builtin e), keep d)
    | (Hangs, d) => (Never, keep d)
    end.

(** [assert b]. *)
Definition py_assert (b : bool) : D unit :=
  fun w => if b then (Done tt, w) else (Fails AssertionError, w).

(** [self.parquet_files[i] = dst], with [i] in range. *)
Definition set_file (i : nat) (dst : string) : D unit :=
  fun w => (Done tt, {| parquet_files := <[i := dst]> (parquet_files w);
                        disk := disk w |}).

Section DownloadFiles.
(** [_is_non_local] and [copy] of [verl.utils.fs], and
    [self.cache_dir]. *)
Variable is_non_local : string -> bool.
Variable copy : string -> string -> M fs_world unit.
Variable cache_dir : string.

(** [dst] of lines 79. *)
Definition dst_of (parquet_file : string) : string :=
  path_join cache_dir (basename parquet_file).

(** The body of the loop (lines 78-82). *)
Definition download_one (i : nat) (parquet_file : string) : D unit :=
  if is_non_local parquet_file then
    do! there <- on_disk (path_exists (dst_of parquet_file));
    exec! (if negb there then on_disk (copy parquet_file (dst_of parquet_file))
           else dret tt);
    set_file i (dst_of parquet_file)
  else dret tt.

(** [for i, parquet_file in enumerate(self.parquet_files)]: the iterator
    reads the live list at index [i] and stops past its end; [n] counts
    the iterations left, the list never changing its length. *)
Fixpoint download_loop (n i : nat) : D unit :=
  match n with
  | O => dret tt
  | Datatypes.S n' =>
      fun w =>
        match parquet_files w !! i with
        | None => (Done tt, w)
        | Some parquet_file =>
            (exec! download_one i parquet_file;
             download_loop n' (Datatypes.S i)) w
        end
  end.

(** [_download_files] (lines 73-82). *)
Definition _download_files : D unit :=
  exec! on_disk (makedirs cache_dir true);
  do! there <- on_disk (path_exists cache_dir);
  exec! py_assert there;
  fun w => download_loop (length (parquet_files w)) 0 w.

(** [torch.distributed.barrier()] as the calling process sees it: it
    comes back once every rank has arrived, the other ranks having done
    to the disk what they do; it raises, or does not come back, when
    they do not arrive. *)
Variable barrier : D unit.

(** What one process does with the body of
    [download_files_distributed]. *)
Fixpoint run_body (download_fn : D unit) (code : list instr) : D unit :=
  match code with
  | [] => dret tt
  | Call :: rest => exec! download_fn; run_body download_fn rest
  | Barrier :: rest => exec! barrier; run_body download_fn rest
  end.

(** [_download] (lines 71-84). *)
Definition _download (d : dist) : D unit :=
  run_body _download_files (download_files_distributed d).

(** The entry a downloaded file is replaced by. *)
Definition localized (parquet_file : string) : string :=
  if is_non_local parquet_file then dst_of parquet_file else parquet_file.
End DownloadFiles.

(** A [copy] that works: the destination becomes a regular file. *)
Definition copy_to_disk (src dst : string) : M fs_world unit :=
  modify (set_nodes (insert dst RegularFile)).

End Download.

(** ** What the specification says of the cleanup *)

Module Cleanup.
Import Os BaseCheckpointManager.

(** The call returns and has changed nothing at all. *)
Definition returns_without_effect (env : os_env) (refused : string -> bool)
  (self : manager) (w : fs_world) : Prop :=
  remove_previous_save_local_path env refused self w = (Return tt, w).

(** A deletion that the system refuses is logged: what the call prints
    differs from what it prints when nothing is refused. *)
Definition failure_is_logged (env : os_env) (refused : string -> bool)
  (self : manager) (w : fs_world) : Prop :=
  stdout (remove_previous_save_local_path env refused self w).2
  ≠ stdout (remove_previous_save_local_path env (fun _ => false) self w).2.

End Cleanup.

(** * Properties *)

(** ** Padding *)

Section PadToLength.
Import RMDataset.

Lemma shape_last_cat (a b : tensor) :
  shape_last (torch_cat a b) = shape_last a + shape_last b.
Proof. unfold shape_last, torch_cat. rewrite length_app. lia. Qed.

Lemma shape_last_zeros (n : Z) : 0 <= n -> shape_last (torch_zeros n) = n.
Proof.
  intros Hn. unfold shape_last, torch_zeros. rewrite length_replicate. lia.
Qed.

Lemma slice_to_nonneg (n : Z) (t : tensor) :
  0 <= n -> slice_to n t = take (Z.to_nat n) t.
Proof.
  intros Hn. unfold slice_to.
  destruct (Z.leb_spec 0 n) as [_|Hlt]; [reflexivity | lia].
Qed.

Lemma shape_last_slice_to (n : Z) (t : tensor) :
  0 <= n <= shape_last t -> shape_last (slice_to n t) = n.
Proof.
  intros [Hn Hle]. rewrite slice_to_nonneg by assumption.
  unfold shape_last in *. rewrite length_take. lia.
Qed.
End PadToLength.

(** C10, as amended: for every [max_length >= 0] and every pair of 1-D
    tensors of the same length, both results of [_pad_to_length] have
    length exactly [max_length]; shorter inputs get zeros appended on the
    right, longer inputs keep their first [max_length] elements, inputs
    of length [max_length] come back unchanged. *)
Theorem pad_to_length_exact (max_length : Z)
    (input_ids attention_mask : RMDataset.tensor) :
  0 <= max_length ->
  length input_ids = length attention_mask ->
  let out := RMDataset._pad_to_length max_length input_ids attention_mask in
  let pad := replicate (Z.to_nat (max_length - RMDataset.shape_last input_ids)) 0 in
  RMDataset.shape_last out.1 = max_length
  ∧ RMDataset.shape_last out.2 = max_length
  ∧ (RMDataset.shape_last input_ids < max_length ->
       out = (input_ids ++ pad, attention_mask ++ pad))
  ∧ (RMDataset.shape_last input_ids > max_length ->
       out = (take (Z.to_nat max_length) input_ids,
              take (Z.to_nat max_length) attention_mask))
  ∧ (RMDataset.shape_last input_ids = max_length ->
       out = (input_ids, attention_mask)).
Proof.
  intros Hmax Hlen out pad. subst out pad.
  assert (Hshape : RMDataset.shape_last attention_mask
                   = RMDataset.shape_last input_ids)
    by (unfold RMDataset.shape_last; lia).
  unfold RMDataset._pad_to_length.
  destruct (Z.ltb_spec (RMDataset.shape_last input_ids) max_length) as [Hlt|Hge].
  - cbn [fst snd]. rewrite !shape_last_cat, shape_last_zeros, Hshape by lia.
    repeat split; lia.
  - destruct (Z.gtb_spec (RMDataset.shape_last input_ids) max_length) as [Hgt|Hle].
    + cbn [fst snd]. rewrite !shape_last_slice_to by lia.
      repeat split; try lia.
      intros _. rewrite !slice_to_nonneg by lia. reflexivity.
    + cbn [fst snd]. repeat split; lia.
Qed.

Lemma pad_to_length_exact_witness :
  RMDataset._pad_to_length 4 [7; 8] [1; 1] = ([7; 8; 0; 0], [1; 1; 0; 0])
  ∧ RMDataset._pad_to_length 2 [7; 8; 9] [1; 1; 1] = ([7; 8], [1; 1]).
Proof.
  split.
  - apply (pad_to_length_exact 4 [7; 8] [1; 1]); [lia | reflexivity | reflexivity].
  - apply (pad_to_length_exact 2 [7; 8; 9] [1; 1; 1]);
      [lia | reflexivity | reflexivity].
Defined.

(** C10 as stated fails: the mask is padded by what [input_ids] lacks,
    so a mask of another length misses [max_length]; and a negative
    [max_length] slices from the end. *)
Lemma pad_to_length_counterexample :
  ¬ RMDataset.pads_exactly 4 [1; 2] [1; 1; 1; 1; 1]
  ∧ ¬ RMDataset.pads_exactly (-1) [1; 2; 3] [1; 1; 1].
Proof.
  split; unfold RMDataset.pads_exactly; cbn; intros [H1 H2]; discriminate.
Qed.

(** ** The rank-gated action *)

Section RankGated.
Import Distributed.
Context {S : Type}.
Variable download_fn : M S unit.
Variable s0 : S.

(** Ranks above 0 wait at the barrier and do nothing else. *)
Lemma other_ranks_code (start m : nat) :
  (1 <= start)%nat ->
  (fun r => Running (download_files_distributed
     {| is_initialized := true; get_rank := Z.of_nat r |})) <$> seq start m
  = replicate m (Running [Barrier]).
Proof.
  revert start. induction m as [|m IH]; intros start Hstart; [reflexivity|].
  cbn [seq fmap list_fmap replicate]. f_equal.
  - unfold download_files_distributed; cbn.
    destruct (Z.eqb_spec (Z.of_nat start) 0) as [Heq|_]; [lia | reflexivity].
  - apply IH. lia.
Qed.

Lemma group_procs_succ (m : nat) :
  group_procs (Datatypes.S m)
  = Running [Call; Barrier] :: replicate m (Running [Barrier]).
Proof.
  unfold group_procs. cbn [seq fmap list_fmap]. f_equal.
  apply other_ranks_code. lia.
Qed.

Lemma group_start_succ (m : nat) :
  group_start (Datatypes.S m) s0 = before_call s0 m.
Proof. unfold group_start, before_call. by rewrite group_procs_succ. Qed.

Lemma pass_barrier_waiting (m : nat) :
  mapM pass_barrier (replicate m (Running [Barrier]))
  = Some (replicate m (Running [])).
Proof. induction m as [|m IH]; [reflexivity|]. cbn. by rewrite IH. Qed.

Lemma lookup_waiting (m r : nat) (code : list instr) :
  replicate m (Running [Barrier]) !! r = Some (Running (Call :: code)) ->
  False.
Proof. intros [H _]%lookup_replicate. discriminate. Qed.

Lemma step_before_call (m : nat) (c : config S) :
  step download_fn (before_call s0 m) c -> c = at_barrier download_fn s0 m.
Proof.
  inversion 1 as [c0 r code Hr | c0 ps Hps Hne]; subst.
  - destruct r as [|r]; cbn in Hr.
    + injection Hr as <-. reflexivity.
    + by apply lookup_waiting in Hr.
  - cbn in Hps. discriminate.
Qed.

Lemma step_at_barrier (m : nat) (c : config S) :
  step download_fn (at_barrier download_fn s0 m) c ->
  (download_fn s0).1 = Return tt ∧ c = past_barrier download_fn s0 m.
Proof.
  inversion 1 as [c0 r code Hr | c0 ps Hps Hne]; subst.
  - destruct r as [|r]; cbn in Hr.
    + destruct ((download_fn s0).1); discriminate.
    + by apply lookup_waiting in Hr.
  - cbn in Hps. unfold past_barrier.
    destruct ((download_fn s0).1) as [[]| |] eqn:Ho; cbn in Hps; try discriminate.
    rewrite pass_barrier_waiting in Hps. cbn in Hps.
    injection Hps as <-. split; reflexivity.
Qed.

Lemma step_past_barrier (m : nat) (c : config S) :
  step download_fn (past_barrier download_fn s0 m) c -> False.
Proof.
  inversion 1 as [c0 r code Hr | c0 ps Hps Hne]; subst.
  - cbn [procs past_barrier] in Hr.
    apply lookup_replicate in Hr as [Hr _]. discriminate.
  - cbn in Hps. discriminate.
Qed.

(** Nothing else is reachable. *)
Lemma group_reachable (m : nat) (c : config S) :
  reachable download_fn (before_call s0 m) c ->
  c = before_call s0 m ∨ c = at_barrier download_fn s0 m
  ∨ ((download_fn s0).1 = Return tt ∧ c = past_barrier download_fn s0 m).
Proof.
  unfold reachable. revert c.
  apply rtc_ind_r; [by left|].
  intros c c' Hreach Hstep IH.
  destruct IH as [-> | [-> | [Ho ->]]].
  - right; left. by apply step_before_call.
  - right; right. by apply step_at_barrier.
  - by apply step_past_barrier in Hstep.
Qed.

Lemma group_completes (m : nat) :
  (download_fn s0).1 = Return tt ->
  reachable download_fn (before_call s0 m) (past_barrier download_fn s0 m).
Proof.
  intros Ho. unfold reachable.
  eapply rtc_l;
    [apply (step_call download_fn (before_call s0 m) 0%nat [Barrier]);
     reflexivity|].
  eapply rtc_l; [|apply rtc_refl].
  cbn [procs shared calls before_call insert list_insert].
  rewrite Ho. cbn [after_call].
  apply (step_barrier download_fn
           {| procs := Running [Barrier] :: replicate m (Running [Barrier]);
              shared := (download_fn s0).2; calls := 1 |}
           (replicate (Datatypes.S m) (Running []))); [|discriminate].
  apply (pass_barrier_waiting (Datatypes.S m)).
Qed.

Lemma single_reachable (c : config S) :
  reachable download_fn (single_start s0) c ->
  c = single_start s0 ∨ c = single_done download_fn s0.
Proof.
  unfold reachable. revert c.
  apply rtc_ind_r; [by left|].
  intros c c' Hreach Hstep IH.
  right. destruct IH as [-> | ->].
  - inversion Hstep as [c0 r code Hr | c0 ps Hps Hne]; subst.
    + destruct r as [|[|r]]; cbn in Hr; try discriminate.
      injection Hr as <-. reflexivity.
    + cbn in Hps. discriminate.
  - inversion Hstep as [c0 r code Hr | c0 ps Hps Hne]; subst.
    + destruct r as [|[|r]]; cbn in Hr; try discriminate.
      destruct ((download_fn s0).1); discriminate.
    + cbn in Hps. destruct ((download_fn s0).1); discriminate.
Qed.

Lemma single_completes :
  reachable download_fn (single_start s0) (single_done download_fn s0).
Proof.
  unfold reachable. eapply rtc_l; [|apply rtc_refl].
  apply (step_call download_fn (single_start s0) 0%nat []). reflexivity.
Qed.
End RankGated.

(** C1: in an active process group only rank 0 has [download_fn] in its
    path, and every rank's last act before returning is the barrier;
    without a group the body is the call alone. Run as a job of [n]
    ranks over a shared state, the action is entered at most once, no
    rank returns before the barrier has opened for all of them, and by
    then the action has run exactly once and every rank sees the state
    it left; when the action returns, the job does reach that point. The
    sole process of single-process mode makes the call itself, once. *)
Theorem download_files_distributed_gated {S : Type}
    (download_fn : M S unit) (s0 : S) (n : nat) :
  (1 <= n)%nat ->
  (∀ r : Z,
     let code := Distributed.download_files_distributed
                   {| Distributed.is_initialized := true;
                      Distributed.get_rank := r |} in
     (Distributed.Call ∈ code ↔ r = 0)
     ∧ (count_occ Distributed.instr_eq_dec code Distributed.Call <= 1)%nat
     ∧ last code = Some Distributed.Barrier)
  ∧ (∀ r : Z,
       Distributed.download_files_distributed
         {| Distributed.is_initialized := false;
            Distributed.get_rank := r |} = [Distributed.Call])
  ∧ (∀ c : Distributed.config S,
       Distributed.reachable download_fn (Distributed.group_start n s0) c ->
       length (Distributed.procs c) = n
       ∧ (Distributed.calls c <= 1)%nat
       ∧ (Exists (fun p => Distributed.has_returned p = true)
                 (Distributed.procs c) ->
          Distributed.all_returned c
          ∧ Distributed.calls c = 1%nat
          ∧ (download_fn s0).1 = Return tt
          ∧ Distributed.shared c = (download_fn s0).2))
  ∧ ((download_fn s0).1 = Return tt ->
     ∃ c : Distributed.config S,
       Distributed.reachable download_fn (Distributed.group_start n s0) c
       ∧ Distributed.all_returned c)
  ∧ (∀ c : Distributed.config S,
       Distributed.reachable download_fn (Distributed.single_start s0) c ->
       (Distributed.calls c <= 1)%nat
       ∧ (Distributed.all_returned c ->
          Distributed.calls c = 1%nat
          ∧ (download_fn s0).1 = Return tt
          ∧ Distributed.shared c = (download_fn s0).2))
  ∧ ((download_fn s0).1 = Return tt ->
     ∃ c : Distributed.config S,
       Distributed.reachable download_fn (Distributed.single_start s0) c
       ∧ Distributed.all_returned c).
Proof.
  intros Hn. destruct n as [|m]; [lia|]. clear Hn.
  rewrite group_start_succ.
  split; [|split; [|split; [|split; [|split]]]].
  - intros r code. subst code. unfold Distributed.download_files_distributed.
    cbn [Distributed.is_initialized Distributed.get_rank].
    destruct (Z.eqb_spec r 0) as [->|Hr]; cbn.
    + split; [split; [reflexivity | intros _; apply list_elem_of_here]|].
      split; [lia | reflexivity].
    + split; [split|split; [lia | reflexivity]].
      * intros Hin. apply list_elem_of_In in Hin. cbn in Hin.
        destruct Hin as [Hin|[]]. discriminate.
      * intros ->. contradiction.
  - reflexivity.
  - intros c Hc.
    destruct (group_reachable download_fn s0 m c Hc) as [-> | [-> | [Ho ->]]].
    + cbn. rewrite length_replicate. split; [reflexivity|]. split; [lia|].
      intros Hex. exfalso.
      apply Exists_cons in Hex as [Hex|Hex]; [discriminate|].
      apply Exists_exists in Hex as (p & Hp & Hret).
      apply elem_of_replicate in Hp as [-> _]. discriminate.
    + cbn. rewrite length_replicate. split; [reflexivity|]. split; [lia|].
      intros Hex. exfalso. apply Exists_cons in Hex as [Hex|Hex].
      * destruct ((download_fn s0).1); discriminate.
      * apply Exists_exists in Hex as (p & Hp & Hret).
        apply elem_of_replicate in Hp as [-> _]. discriminate.
    + cbn [Distributed.procs Distributed.calls Distributed.shared Distributed.past_barrier].
      rewrite length_replicate. split; [reflexivity|]. split; [lia|].
      intros _. split; [|split; [reflexivity | split; [assumption | reflexivity]]].
      unfold Distributed.all_returned. cbn [Distributed.procs].
      apply Forall_replicate. reflexivity.
  - intros Ho. exists (Distributed.past_barrier download_fn s0 m). split.
    + by apply group_completes.
    + unfold Distributed.all_returned. cbn [Distributed.procs Distributed.past_barrier].
      apply Forall_replicate. reflexivity.
  - intros c Hc.
    destruct (single_reachable download_fn s0 c Hc) as [-> | ->].
    + cbn. split; [lia|]. intros Hall. apply Forall_cons in Hall as [Hall _].
      discriminate.
    + cbn. split; [lia|]. intros Hall. apply Forall_cons in Hall as [Hall _].
      destruct ((download_fn s0).1) as [[]| |]; try discriminate. done.
  - intros Ho. exists (Distributed.single_done download_fn s0). split.
    + apply single_completes.
    + unfold Distributed.all_returned. cbn. rewrite Ho. cbn.
      apply Forall_cons. split; [reflexivity | apply Forall_nil_2].
Qed.

(** Four ranks and an action that adds one to a shared counter: the
    job finishes with the counter raised by one, not by four. *)
Lemma download_files_distributed_gated_witness :
  (1 <= 4)%nat
  ∧ ∃ c : Distributed.config Z,
      Distributed.reachable (modify Z.succ) (Distributed.group_start 4 10) c
      ∧ Distributed.all_returned c
      ∧ Distributed.calls c = 1%nat
      ∧ Distributed.shared c = 11.
Proof.
  split; [lia|].
  destruct (download_files_distributed_gated (modify Z.succ) 10 4 ltac:(lia))
    as (_ & _ & Hinv & Hdone & _).
  destruct (Hdone eq_refl) as (c & Hc & Hall).
  exists c. destruct (Hinv c Hc) as (Hlen & _ & Hret).
  assert (Hex : Exists (fun p => Distributed.has_returned p = true)
                       (Distributed.procs c)).
  { unfold Distributed.all_returned in Hall.
    destruct (Distributed.procs c) as [|p ps]; [discriminate|].
    apply Exists_cons_hd. by apply Forall_cons in Hall as [Hp _]. }
  destruct (Hret Hex) as (_ & Hcalls & _ & Hshared).
  repeat split; assumption.
Defined.

(** ** Capture and restore of the generators *)

Section RngState.
Import Rng BaseCheckpointManager.

Lemma get_rng_state_run (w : rng_world) :
  get_rng_state w
  = (Return (<["random" := RandomState (python_random w)]>
             (<["numpy" := NumpyState (numpy_random w)]>
              (<["cuda" := TorchCudaState (torch_cuda w)]>
               (<["cpu" := TorchCpuState (torch_cpu w)]> ∅)))), w).
Proof. reflexivity. Qed.

(** A capsule with the four states restores exactly them. *)
Lemma load_rng_state_installs (c : gmap string py_value) (w : rng_world)
    (cpu cuda numpy random : rng_blob) :
  c !! "cpu" = Some (TorchCpuState cpu) ->
  c !! "cuda" = Some (TorchCudaState cuda) ->
  c !! "numpy" = Some (NumpyState numpy) ->
  c !! "random" = Some (RandomState random) ->
  load_rng_state c w
  = (Return tt, {| torch_cpu := cpu; torch_cuda := cuda;
                   numpy_random := numpy; python_random := random |}).
Proof.
  intros H1 H2 H3 H4. unfold load_rng_state, bind, getitem.
  rewrite H1. cbn. rewrite H2. cbn. rewrite H3. cbn. rewrite H4.
  reflexivity.
Qed.

Lemma round_trip_identity (w : rng_world) :
  (do c <- get_rng_state; load_rng_state c) w = (Return tt, w).
Proof.
  unfold bind at 1. rewrite get_rng_state_run.
  rewrite (load_rng_state_installs _ w (torch_cpu w) (torch_cuda w)
             (numpy_random w) (python_random w)); try reflexivity.
  by destruct w.
Qed.
End RngState.

(** C2: capturing the generators and restoring the capture at once
    returns normally and leaves all four generator states as they were,
    so every run of draws after it, from whichever streams, gives the
    numbers and the final states it gives without the round trip. *)
Theorem rng_round_trip_preserves_draws
    (next : Rng.stream -> Rng.rng_blob -> Z * Rng.rng_blob)
    (w : Rng.rng_world) (schedule : list Rng.stream) :
  (do c <- BaseCheckpointManager.get_rng_state; BaseCheckpointManager.load_rng_state c) w = (Return tt, w)
  ∧ (exec (do c <- BaseCheckpointManager.get_rng_state; BaseCheckpointManager.load_rng_state c);
     Rng.draws next schedule) w
    = Rng.draws next schedule w.
Proof.
  split; [apply round_trip_identity|].
  unfold bind at 1. by rewrite round_trip_identity.
Qed.

(** C6, as amended: every call of [get_rng_state] returns, leaving the
    generators alone, a dictionary with exactly the four keys [cpu],
    [cuda], [numpy] and [random], holding the current state of torch's
    CPU generator, of torch's CUDA generator, of numpy's generator and
    of the interpreter's [random] module. *)
Theorem get_rng_state_four_streams (w : Rng.rng_world) :
  BaseCheckpointManager.captures_exactly (list_to_set BaseCheckpointManager.expected_keys) w
  ∧ ∃ c, BaseCheckpointManager.get_rng_state w = (Return c, w)
      ∧ c !! "cpu" = Some (Rng.TorchCpuState (Rng.torch_cpu w))
      ∧ c !! "cuda" = Some (Rng.TorchCudaState (Rng.torch_cuda w))
      ∧ c !! "numpy" = Some (Rng.NumpyState (Rng.numpy_random w))
      ∧ c !! "random" = Some (Rng.RandomState (Rng.python_random w)).
Proof.
  split.
  - eexists. split; [apply get_rng_state_run|].
    rewrite !dom_insert_L, dom_empty_L. cbn. set_solver.
  - eexists. split; [apply get_rng_state_run|]. repeat split; reflexivity.
Qed.

(** C6 as stated fails: the capture has a fourth stream, torch's CPU
    generator under the key [cpu], next to the three the specification
    lists. *)
Lemma get_rng_state_counterexample :
  ¬ BaseCheckpointManager.captures_exactly BaseCheckpointManager.spec_streams
      {| Rng.torch_cpu := [1]; Rng.torch_cuda := [2];
         Rng.numpy_random := [3]; Rng.python_random := [4] |}.
Proof.
  intros (c & Hc & Hdom). rewrite get_rng_state_run in Hc.
  injection Hc as <-.
  assert (Hin : "cpu" ∈ BaseCheckpointManager.spec_streams).
  { rewrite <- Hdom. rewrite !dom_insert_L. set_solver. }
  unfold BaseCheckpointManager.spec_streams in Hin. set_solver.
Qed.




(** ** Directory provisioning *)

Section LocalMkdir.
Import Os BaseCheckpointManager.

Lemma held_restored (p : string) (h : gset string) :
  p ∉ h -> ({[p]} ∪ h) ∖ {[p]} = h.
Proof.
  intros Hp. apply set_eq. intros x.
  rewrite elem_of_difference, elem_of_union, elem_of_singleton.
  split; [intros [[->|Hx] Hne]; done|].
  intros Hx. split; [by right | by intros ->].
Qed.

(** What [with FileLock(p): os.makedirs(p, exist_ok=True)] does,
    by what is at [p] and whether the lock is taken. *)
Lemma lock_then_makedirs_directory (p : string) (w : fs_world) :
  nodes w !! p = Some Directory ->
  with_FileLock p (makedirs p true) w = (Raises IsADirectoryError, w).
Proof. intros Hp. unfold with_FileLock, filelock_acquire. by rewrite Hp. Qed.

Lemma lock_then_makedirs_held (p : string) (w : fs_world) :
  nodes w !! p ≠ Some Directory ->
  p ∈ held w ->
  with_FileLock p (makedirs p true) w
  = (Hangs, set_nodes (insert p RegularFile) w).
Proof.
  intros Hp Hheld. unfold with_FileLock, filelock_acquire.
  rewrite (bool_decide_eq_true_2 _ Hheld).
  by destruct (nodes w !! p) as [[]|].
Qed.

Lemma lock_then_makedirs_free (p : string) (w : fs_world) :
  nodes w !! p ≠ Some Directory ->
  p ∉ held w ->
  with_FileLock p (makedirs p true) w
  = (Raises FileExistsError,
     {| nodes := <[p := RegularFile]> (nodes w);
        held := held w; stdout := stdout w |}).
Proof.
  intros Hp Hfree. unfold with_FileLock, filelock_acquire.
  rewrite (bool_decide_eq_false_2 _ Hfree).
  assert (Hrun : makedirs p true
                   (set_held (union {[p]}) (set_nodes (insert p RegularFile) w))
                 = (Raises FileExistsError,
                    set_held (union {[p]})
                      (set_nodes (insert p RegularFile) w))).
  { unfold makedirs. cbn. by rewrite lookup_insert_eq. }
  destruct (nodes w !! p) as [[]|]; try done; rewrite Hrun;
    unfold filelock_release, set_held, set_nodes; cbn;
    by rewrite held_restored.
Qed.

(** X12: the lock is not left behind, however the call ends. *)
Lemma local_mkdir_releases_lock (env : os_env) (path : string)
    (use_temp_dir is_abs : bool) (w : fs_world) :
  (local_mkdir env path use_temp_dir is_abs w).1 ≠ Hangs ->
  held (local_mkdir env path use_temp_dir is_abs w).2 = held w.
Proof.
  unfold local_mkdir, bind.
  set (p := local_mkdir_path env path use_temp_dir is_abs).
  destruct (decide (nodes w !! p = Some Directory)) as [Hd|Hd].
  { by rewrite lock_then_makedirs_directory. }
  destruct (decide (p ∈ held w)) as [Hh|Hh].
  - rewrite lock_then_makedirs_held by done. cbn. congruence.
  - by rewrite lock_then_makedirs_free.
Qed.
(** X13: a lock file left by an earlier call does not help the next one:
    the call takes the lock on it, [os.makedirs] fails on it again with
    [FileExistsError], a regular file is still at the path and the lock
    is free again. *)
Lemma local_mkdir_again_raises (env : os_env) (path : string)
    (use_temp_dir is_abs : bool) (w : fs_world) :
  let p := local_mkdir_path env path use_temp_dir is_abs in
  let run := local_mkdir env path use_temp_dir is_abs w in
  nodes w !! p = Some RegularFile ->
  p ∉ held w ->
  run.1 = Raises FileExistsError
  ∧ nodes run.2 !! p = Some RegularFile
  ∧ held run.2 = held w.
Proof.
  intros p run Hfile Hfree. subst run. unfold local_mkdir, bind. fold p.
  rewrite lock_then_makedirs_free; [|congruence|done].
  cbn. by rewrite lookup_insert_eq.
Qed.
End LocalMkdir.

(** X11: [local_mkdir] resolves the path by its mode, but never returns it:
    whatever is on disk, the call raises or waits for the lock, and it
    never makes a directory at the resolved path. *)
Lemma local_mkdir_never_returns (env : Os.os_env) (path : string)
    (use_temp_dir is_abs : bool) (w : Os.fs_world) :
  let p := BaseCheckpointManager.local_mkdir_path env path use_temp_dir is_abs in
  let run := BaseCheckpointManager.local_mkdir env path use_temp_dir is_abs w in
  returned run.1 = false
  ∧ (Os.nodes run.2 !! p = Some Os.Directory ->
     Os.nodes w !! p = Some Os.Directory).
Proof.
  intros p run. subst run. unfold BaseCheckpointManager.local_mkdir, bind.
  fold p.
  destruct (decide (Os.nodes w !! p = Some Os.Directory)) as [Hd|Hd].
  { rewrite lock_then_makedirs_directory by done. by split. }
  destruct (decide (p ∈ Os.held w)) as [Hh|Hh].
  - rewrite lock_then_makedirs_held by done. cbn. split; [done|].
    rewrite lookup_insert_eq. discriminate.
  - rewrite lock_then_makedirs_free by done. cbn. split; [done|].
    rewrite lookup_insert_eq. discriminate.
Qed.

(** C3, where the code departs from it: in scratch mode with nothing on
    disk, [local_mkdir("ckpt", use_temp_dir=True)] resolves the path to
    [/tmp/ckpt.lock] where the specification has [/tmp/ckpt], leaves a
    regular file (the lock file) there, makes no directory and raises
    [FileExistsError] instead of returning the path. *)
Theorem local_mkdir_scratch_run :
  let env := {| Os.gettempdir := "/tmp";
                Os.package_dir := "/opt/verl/workers/checkpoint";
                Os.getcwd := "/home/user";
                Os.normpath := fun p => p |} in
  let w := {| Os.nodes := ∅; Os.held := ∅; Os.stdout := [] |} in
  BaseCheckpointManager.local_mkdir_path env "ckpt" true true = "/tmp/ckpt.lock"
  ∧ BaseCheckpointManager.spec_resolved env "ckpt" true true = "/tmp/ckpt"
  ∧ BaseCheckpointManager.local_mkdir env "ckpt" true true w
    = (Raises FileExistsError,
       {| Os.nodes := {["/tmp/ckpt.lock" := Os.RegularFile]};
          Os.held := ∅; Os.stdout := [] |}).
Proof.
  intros env w. split; [reflexivity|]. split; [reflexivity|].
  unfold BaseCheckpointManager.local_mkdir, bind.
  change (BaseCheckpointManager.local_mkdir_path env "ckpt" true true)
    with "/tmp/ckpt.lock".
  rewrite lock_then_makedirs_free by (subst w; cbn; set_solver).
  subst w. cbn. by rewrite insert_empty.
Qed.

(** C4: when the resolved path already is a directory, [local_mkdir]
    does not succeed: taking the lock opens that path as the lock file,
    which raises [IsADirectoryError], and nothing changes. *)
Theorem local_mkdir_existing_directory (env : Os.os_env) (path : string)
    (use_temp_dir is_abs : bool) (w : Os.fs_world) :
  Os.nodes w !! BaseCheckpointManager.local_mkdir_path env path use_temp_dir is_abs
    = Some Os.Directory ->
  BaseCheckpointManager.local_mkdir env path use_temp_dir is_abs w
  = (Raises IsADirectoryError, w).
Proof.
  intros Hd. unfold BaseCheckpointManager.local_mkdir, bind.
  by rewrite lock_then_makedirs_directory.
Qed.

Lemma local_mkdir_existing_directory_witness :
  BaseCheckpointManager.local_mkdir
    {| Os.gettempdir := "/tmp";
       Os.package_dir := "/opt/verl/workers/checkpoint";
       Os.getcwd := "/home/user";
       Os.normpath := fun p => p |}
    "/data/ckpt" false true
    {| Os.nodes := {["/data/ckpt" := Os.Directory]};
       Os.held := ∅; Os.stdout := [] |}
  = (Raises IsADirectoryError,
     {| Os.nodes := {["/data/ckpt" := Os.Directory]};
        Os.held := ∅; Os.stdout := [] |}).
Proof.
  apply local_mkdir_existing_directory. reflexivity.
Defined.

(** C5: the lock file and the directory are one path. With nothing at
    the resolved path and the lock free, [local_mkdir] leaves a regular
    file (the lock file) at the very path it was to make a directory at
    and raises [FileExistsError]; the lock itself is released. *)
Theorem local_mkdir_lock_is_directory_path (env : Os.os_env) (path : string)
    (use_temp_dir is_abs : bool) (w : Os.fs_world) :
  let p := BaseCheckpointManager.local_mkdir_path env path use_temp_dir is_abs in
  Os.nodes w !! p = None ->
  p ∉ Os.held w ->
  BaseCheckpointManager.local_mkdir env path use_temp_dir is_abs w
  = (Raises FileExistsError,
     {| Os.nodes := <[p := Os.RegularFile]> (Os.nodes w);
        Os.held := Os.held w; Os.stdout := Os.stdout w |}).
Proof.
  intros p Hnone Hfree. unfold BaseCheckpointManager.local_mkdir, bind.
  fold p. rewrite lock_then_makedirs_free; [done | congruence | done].
Qed.

Lemma local_mkdir_lock_is_directory_path_witness :
  BaseCheckpointManager.local_mkdir
    {| Os.gettempdir := "/tmp";
       Os.package_dir := "/opt/verl/workers/checkpoint";
       Os.getcwd := "/home/user";
       Os.normpath := fun p => p |}
    "/data/ckpt" false true
    {| Os.nodes := ∅; Os.held := ∅; Os.stdout := [] |}
  = (Raises FileExistsError,
     {| Os.nodes := <["/data/ckpt" := Os.RegularFile]> ∅;
        Os.held := ∅; Os.stdout := [] |}).
Proof.
  apply (local_mkdir_lock_is_directory_path
           {| Os.gettempdir := "/tmp";
              Os.package_dir := "/opt/verl/workers/checkpoint";
              Os.getcwd := "/home/user";
              Os.normpath := fun p => p |}
           "/data/ckpt" false true
           {| Os.nodes := ∅; Os.held := ∅; Os.stdout := [] |}).
  - reflexivity.
  - cbn. apply not_elem_of_empty.
Defined.

(** ** Cleanup of the previous checkpoint *)

Section Cleanup.
Import Os BaseCheckpointManager.

Lemma rmtree_returns (refused : string -> bool) (p : string) (w : fs_world) :
  (rmtree_ignore_errors refused p w).1 = Return tt.
Proof. unfold rmtree_ignore_errors. by destruct (nodes w !! p) as [[]|]. Qed.

Lemma rmtree_keeps_rest (refused : string -> bool) (p : string)
    (w : fs_world) :
  let w' := (rmtree_ignore_errors refused p w).2 in
  held w' = held w ∧ stdout w' = stdout w
  ∧ nodes w' ⊆ nodes w
  ∧ ∀ k, in_tree p k = false -> nodes w' !! k = nodes w !! k.
Proof.
  unfold rmtree_ignore_errors.
  destruct (nodes w !! p) as [[]|]; cbn; try done.
  split; [done|]. split; [done|]. split; [apply map_filter_subseteq|].
  intros k Hk. destruct (nodes w !! k) as [v|] eqn:Hv.
  - apply map_lookup_filter_Some. split; [done|]. by left.
  - apply map_lookup_filter_None. by left.
Qed.

Lemma nothing_undeletable (refused : string -> bool)
    (m : gmap string node) (k : string) :
  (∀ k', refused k' = false) -> undeletable refused m k = false.
Proof.
  intros Hnone. unfold undeletable. apply bool_decide_eq_false_2.
  intros (k' & _ & _ & Hk'). rewrite Hnone in Hk'. discriminate.
Qed.

Lemma rmtree_deletes_tree (refused : string -> bool) (p : string)
    (w : fs_world) :
  (∀ k, refused k = false) ->
  nodes w !! p = Some Directory ->
  ∀ k, in_tree p k = true ->
       nodes (rmtree_ignore_errors refused p w).2 !! k = None.
Proof.
  intros Hnone Hp k Hk. unfold rmtree_ignore_errors. rewrite Hp. cbn.
  apply map_lookup_filter_None. right. intros v _ [Hout|Hund]; cbn in *.
  - congruence.
  - rewrite nothing_undeletable in Hund by done. discriminate.
Qed.
End Cleanup.

(** C8, as amended: [remove_previous_save_local_path] returns normally
    in every state of the manager and of the disk, whatever the system
    refuses to delete. With no path tracked it does nothing at all; with
    a path tracked it prints one line naming the absolute path, and
    nothing else, whether or not a deletion fails; when that path does
    not exist it leaves the file system as it is; otherwise it only
    removes entries of the tree at the tracked path, all of them when
    nothing is refused. No lock is touched. *)
Theorem remove_previous_save_local_path_never_raises
    (env : Os.os_env) (refused : string -> bool)
    (self : BaseCheckpointManager.manager) (w : Os.fs_world) :
  let tracked := BaseCheckpointManager.previous_save_local_path self in
  let abs_path := Os.abspath env (default "" tracked) in
  let run :=
    BaseCheckpointManager.remove_previous_save_local_path env refused self w in
  run.1 = Return tt
  ∧ Os.held run.2 = Os.held w
  ∧ (BaseCheckpointManager.truthy tracked = false -> run.2 = w)
  ∧ (BaseCheckpointManager.truthy tracked = true ->
     Os.stdout run.2
     = Os.stdout w
       ++ ["Checkpoint manager remove previous save local path: " +:+ abs_path])
  ∧ (Os.nodes w !! abs_path = None -> Os.nodes run.2 = Os.nodes w)
  ∧ Os.nodes run.2 ⊆ Os.nodes w
  ∧ (∀ k, Os.in_tree abs_path k = false ->
          Os.nodes run.2 !! k = Os.nodes w !! k)
  ∧ (BaseCheckpointManager.truthy tracked = true ->
     (∀ k, refused k = false) ->
     Os.nodes w !! abs_path = Some Os.Directory ->
     ∀ k, Os.in_tree abs_path k = true -> Os.nodes run.2 !! k = None).
Proof.
  intros tracked abs_path run. subst run.
  unfold BaseCheckpointManager.remove_previous_save_local_path.
  fold tracked. fold abs_path.
  destruct (BaseCheckpointManager.truthy tracked) eqn:Htracked; cbn [negb].
  2: { cbn. repeat split; try done. }
  unfold bind, Os.print, modify, Os.path_exists, gets.
  set (w1 := {| Os.nodes := Os.nodes w; Os.held := Os.held w;
                Os.stdout := Os.stdout w ++ _ |}).
  destruct (Os.nodes w !! abs_path) as [nd|] eqn:Hnd.
  - rewrite bool_decide_eq_true_2 by (cbn; eauto). cbn [negb].
    pose proof (rmtree_returns refused abs_path w1) as Hret.
    pose proof (rmtree_keeps_rest refused abs_path w1) as (Hh & Hout & Hsub & Hrest).
    split; [done|]. split; [done|]. split; [done|]. split; [by intros _|].
    split; [done|]. split; [done|]. split; [done|].
    intros _ Hnone Hdir k Hk.
    apply (rmtree_deletes_tree refused abs_path w1);
      [done | cbn; congruence | done].
  - rewrite bool_decide_eq_false_2
      by (cbn; rewrite Hnd; intros [? ?]; discriminate).
    cbn. repeat split; done.
Qed.

(** C8 as stated fails twice. With a tracked path that does not exist
    the call is not without effect: its line is printed before the
    path is looked for. And a failed deletion is not logged: with
    [model.pt] refused, what is printed is what is printed when all
    goes well. *)
Lemma remove_previous_save_local_path_counterexample :
  ¬ Cleanup.returns_without_effect
      {| Os.gettempdir := "/tmp";
         Os.package_dir := "/opt/verl/workers/checkpoint";
         Os.getcwd := "/home/user"; Os.normpath := fun p => p |}
      (fun _ => false)
      {| BaseCheckpointManager.previous_global_step := Some 6;
         BaseCheckpointManager.previous_save_local_path := Some "/data/step_6";
         BaseCheckpointManager.rank := 0 |}
      {| Os.nodes := ∅; Os.held := ∅; Os.stdout := [] |}
  ∧ ¬ Cleanup.failure_is_logged
      {| Os.gettempdir := "/tmp";
         Os.package_dir := "/opt/verl/workers/checkpoint";
         Os.getcwd := "/home/user"; Os.normpath := fun p => p |}
      (fun k => bool_decide (k = "/data/step_6/model.pt"))
      {| BaseCheckpointManager.previous_global_step := Some 6;
         BaseCheckpointManager.previous_save_local_path := Some "/data/step_6";
         BaseCheckpointManager.rank := 0 |}
      {| Os.nodes := <["/data/step_6/model.pt" := Os.RegularFile]>
                       {["/data/step_6" := Os.Directory]};
         Os.held := ∅; Os.stdout := [] |}.
Proof.
  split.
  - unfold Cleanup.returns_without_effect. intros Hrun.
    apply (f_equal (fun r => Os.stdout r.2)) in Hrun.
    vm_compute in Hrun. discriminate.
  - unfold Cleanup.failure_is_logged. intros Hlog. apply Hlog.
    vm_compute. reflexivity.
Qed.

(** ** The abstract [load_checkpoint] *)

(** C9, as amended: [load_checkpoint] of [BaseCheckpointManager] raises
    [NotImplementedError] on every call, whether or not a shard file is
    there, and changes nothing: the error reaches the caller and no
    state is made up in place of the checkpoint. *)
Theorem load_checkpoint_not_implemented
    (self : BaseCheckpointManager.manager) (args : list string)
    (w : Os.fs_world) :
  BaseCheckpointManager.load_checkpoint (A := unit) self args w
    = (Raises NotImplementedError, w)
  ∧ BaseCheckpointManager.load_fails_with "NotImplementedError" self args w.
Proof.
  split; [reflexivity|]. exists NotImplementedError, w. by split.
Qed.

(** C9 as stated fails: with an empty checkpoint directory, so that the
    shard of rank 0 is absent under any naming, the error raised is not
    [CheckpointNotFoundError]. *)
Lemma load_checkpoint_counterexample :
  ¬ BaseCheckpointManager.load_fails_with "CheckpointNotFoundError"
      (BaseCheckpointManager.init 0) ["/data/ckpt/global_step_7"]
      {| Os.nodes := {["/data/ckpt/global_step_7" := Os.Directory]};
         Os.held := ∅; Os.stdout := [] |}.
Proof.
  intros (e & w' & Hrun & Hcls).
  unfold BaseCheckpointManager.load_checkpoint, raise in Hrun.
  injection Hrun as <- <-. discriminate.
Qed.

(** * Further properties *)

(** ** Padding, beyond equal lengths *)

Section PadMore.
Import RMDataset.

Lemma pad_ids_length (max_length : Z) (input_ids attention_mask : tensor) :
  0 <= max_length ->
  shape_last (_pad_to_length max_length input_ids attention_mask).1
  = max_length.
Proof.
  intros Hmax. unfold _pad_to_length.
  destruct (Z.ltb_spec (shape_last input_ids) max_length) as [Hlt|Hge].
  - cbn [fst]. rewrite shape_last_cat, shape_last_zeros; lia.
  - destruct (Z.gtb_spec (shape_last input_ids) max_length) as [Hgt|Hle].
    + cbn [fst]. apply shape_last_slice_to. lia.
    + cbn [fst]. lia.
Qed.

Lemma pad_at_length (max_length : Z) (input_ids attention_mask : tensor) :
  shape_last input_ids = max_length ->
  _pad_to_length max_length input_ids attention_mask
  = (input_ids, attention_mask).
Proof.
  intros Heq. unfold _pad_to_length.
  destruct (Z.ltb_spec (shape_last input_ids) max_length); [lia|].
  destruct (Z.gtb_spec (shape_last input_ids) max_length); [lia|].
  reflexivity.
Qed.

Lemma shape_last_take (n : Z) (t : tensor) :
  0 <= n -> shape_last (take (Z.to_nat n) t) = Z.min n (shape_last t).
Proof. intros Hn. unfold shape_last. rewrite length_take. lia. Qed.
End PadMore.

(** X1: with [max_length >= 0] the ids always come out at [max_length], but
    the mask follows the length of the ids, not its own: it grows by
    what the ids lack, is cut at [max_length] when the ids are too
    long, and is left alone when the ids fit. *)
Theorem pad_to_length_lengths (max_length : Z)
    (input_ids attention_mask : RMDataset.tensor) :
  0 <= max_length ->
  let out := RMDataset._pad_to_length max_length input_ids attention_mask in
  let ids_len := RMDataset.shape_last input_ids in
  let mask_len := RMDataset.shape_last attention_mask in
  RMDataset.shape_last out.1 = max_length
  ∧ RMDataset.shape_last out.2
    = (if ids_len <? max_length then mask_len + (max_length - ids_len)
       else if ids_len >? max_length then Z.min max_length mask_len
       else mask_len).
Proof.
  intros Hmax out ids_len mask_len. subst out ids_len mask_len.
  split; [by apply pad_ids_length|].
  unfold RMDataset._pad_to_length.
  destruct (Z.ltb_spec (RMDataset.shape_last input_ids) max_length) as [Hlt|Hge].
  - cbn [snd]. rewrite shape_last_cat, shape_last_zeros; lia.
  - destruct (Z.gtb_spec (RMDataset.shape_last input_ids) max_length) as [Hgt|Hle].
    + cbn [snd]. rewrite slice_to_nonneg by lia. by apply shape_last_take.
    + reflexivity.
Qed.

Lemma pad_to_length_lengths_witness :
  RMDataset.shape_last (RMDataset._pad_to_length 4 [1; 2] [1; 1; 1; 1; 1]).1 = 4
  ∧ RMDataset.shape_last (RMDataset._pad_to_length 4 [1; 2] [1; 1; 1; 1; 1]).2
    = 7.
Proof.
  apply (pad_to_length_lengths 4 [1; 2] [1; 1; 1; 1; 1]). lia.
Defined.

(** X2: a negative [max_length] pads nothing: both tensors lose their last
    [- max_length] elements (all of them when they are shorter). *)
Theorem pad_to_length_negative (max_length : Z)
    (input_ids attention_mask : RMDataset.tensor) :
  max_length < 0 ->
  RMDataset._pad_to_length max_length input_ids attention_mask
  = (take (Z.to_nat (RMDataset.shape_last input_ids + max_length)) input_ids,
     take (Z.to_nat (RMDataset.shape_last attention_mask + max_length))
          attention_mask).
Proof.
  intros Hneg. unfold RMDataset._pad_to_length, RMDataset.slice_to.
  assert (0 <= RMDataset.shape_last input_ids)
    by (unfold RMDataset.shape_last; lia).
  destruct (Z.ltb_spec (RMDataset.shape_last input_ids) max_length); [lia|].
  destruct (Z.gtb_spec (RMDataset.shape_last input_ids) max_length); [|lia].
  destruct (Z.leb_spec 0 max_length); [lia|]. reflexivity.
Qed.

Lemma pad_to_length_negative_witness :
  RMDataset._pad_to_length (-2) [5; 6; 7] [1; 1; 1] = ([5], [1]).
Proof.
  apply (pad_to_length_negative (-2) [5; 6; 7] [1; 1; 1]). lia.
Defined.

(** X3: padding what has been padded changes nothing. *)
Theorem pad_to_length_idempotent (max_length : Z)
    (input_ids attention_mask : RMDataset.tensor) :
  0 <= max_length ->
  let out := RMDataset._pad_to_length max_length input_ids attention_mask in
  RMDataset._pad_to_length max_length out.1 out.2 = out.
Proof.
  intros Hmax out. subst out.
  rewrite pad_at_length by (by apply pad_ids_length).
  by destruct (RMDataset._pad_to_length _ _ _).
Qed.

Lemma pad_to_length_idempotent_witness :
  RMDataset._pad_to_length 3 [9; 9; 0] [1; 1; 0] = ([9; 9; 0], [1; 1; 0]).
Proof.
  apply (pad_to_length_idempotent 3 [9; 9] [1; 1]). lia.
Defined.

(** X4: the tokens that fit are kept where they are, with their mask, and
    every position that padding adds holds token 0 under mask 0. *)
Theorem pad_to_length_content (max_length : Z)
    (input_ids attention_mask : RMDataset.tensor) (i : nat) :
  0 <= max_length ->
  length input_ids = length attention_mask ->
  let out := RMDataset._pad_to_length max_length input_ids attention_mask in
  (Z.of_nat i < max_length ->
   Z.of_nat i < RMDataset.shape_last input_ids ->
   out.1 !! i = input_ids !! i ∧ out.2 !! i = attention_mask !! i)
  ∧ (RMDataset.shape_last input_ids <= Z.of_nat i < max_length ->
     out.1 !! i = Some 0 ∧ out.2 !! i = Some 0).
Proof.
  intros Hmax Hlen out. subst out.
  unfold RMDataset._pad_to_length, RMDataset.shape_last,
    RMDataset.torch_cat, RMDataset.torch_zeros, RMDataset.tensor in *.
  destruct (Z.ltb_spec (Z.of_nat (length input_ids)) max_length) as [Hlt|Hge].
  - cbn [fst snd]. split.
    + intros _ Hi. rewrite !lookup_app_l by lia. done.
    + intros [Hlo Hhi]. rewrite !lookup_app_r by lia.
      split; apply lookup_replicate_2; lia.
  - destruct (Z.gtb_spec (Z.of_nat (length input_ids)) max_length) as [Hgt|Hle].
    + cbn [fst snd]. rewrite !slice_to_nonneg by lia. split.
      * intros Hi _. rewrite !lookup_take_lt by lia. done.
      * intros [Hlo Hhi]. lia.
    + cbn [fst snd]. split; [done|]. intros [Hlo Hhi]. lia.
Qed.

Lemma pad_to_length_content_witness :
  (RMDataset._pad_to_length 4 [7; 8] [1; 1]).1 !! 3%nat = Some 0
  ∧ (RMDataset._pad_to_length 4 [7; 8] [1; 1]).2 !! 3%nat = Some 0.
Proof.
  apply (pad_to_length_content 4 [7; 8] [1; 1] 3);
    [lia | reflexivity | unfold RMDataset.shape_last; simpl; lia].
Defined.

(** ** The rank-gated action: failure and progress *)

Section RankGatedMore.
Import Distributed.
Context {S : Type}.
Variable download_fn : M S unit.
Variable s0 : S.

Lemma barrier_opens (m : nat) :
  (download_fn s0).1 = Return tt ->
  step download_fn (at_barrier download_fn s0 m)
                   (past_barrier download_fn s0 m).
Proof.
  intros Ho.
  apply (step_barrier download_fn (at_barrier download_fn s0 m)
           (replicate (Datatypes.S m) (Running []))).
  - cbn [procs at_barrier]. rewrite Ho. cbn [after_call].
    apply (pass_barrier_waiting (Datatypes.S m)).
  - discriminate.
Qed.

Lemma call_reaches_barrier (m : nat) :
  step download_fn (before_call s0 m) (at_barrier download_fn s0 m).
Proof.
  apply (step_call download_fn (before_call s0 m) 0%nat [Barrier]).
  reflexivity.
Qed.

Lemma no_return_in_waiting (m : nat) :
  Forall (fun p => has_returned p = false) (replicate m (Running [Barrier])).
Proof. apply Forall_replicate. reflexivity. Qed.
End RankGatedMore.

(** X5: when the action does not return on rank 0 (it raises, or hangs),
    no rank of the group ever returns from
    [download_files_distributed]; the job comes to the point where
    rank 0 has stopped after its one call while every other rank has
    gone to wait in the barrier. *)
Theorem download_files_distributed_failure_blocks {S : Type}
    (download_fn : M S unit) (s0 : S) (n : nat) :
  (1 <= n)%nat ->
  (download_fn s0).1 ≠ Return tt ->
  (∀ c : Distributed.config S,
     Distributed.reachable download_fn (Distributed.group_start n s0) c ->
     Forall (fun p => Distributed.has_returned p = false) (Distributed.procs c))
  ∧ ∃ c : Distributed.config S,
      Distributed.reachable download_fn (Distributed.group_start n s0) c
      ∧ Distributed.calls c = 1%nat
      ∧ Distributed.procs c
        = Distributed.after_call (download_fn s0).1 [Distributed.Barrier]
          :: replicate (n - 1) (Distributed.Running [Distributed.Barrier]).
Proof.
  intros Hn Hfail. destruct n as [|m]; [lia|]. clear Hn.
  rewrite group_start_succ. split.
  - intros c Hc.
    destruct (group_reachable download_fn s0 m c Hc) as [-> | [-> | [Ho _]]];
      [| |done].
    + cbn. apply Forall_cons. split; [done|].
      by apply no_return_in_waiting.
    + cbn. apply Forall_cons. split.
      * by destruct ((download_fn s0).1).
      * by apply no_return_in_waiting.
  - exists (Distributed.at_barrier download_fn s0 m). split; [|split].
    + eapply rtc_l; [apply call_reaches_barrier | apply rtc_refl].
    + reflexivity.
    + cbn. by rewrite Nat.sub_0_r.
Qed.

Lemma download_files_distributed_failure_blocks_witness :
  ∃ c : Distributed.config Z,
    Distributed.reachable (fun s => (Raises FileExistsError, s))
      (Distributed.group_start 3 0) c
    ∧ Distributed.calls c = 1%nat
    ∧ Distributed.procs c
      = [Distributed.Crashed FileExistsError;
         Distributed.Running [Distributed.Barrier];
         Distributed.Running [Distributed.Barrier]].
Proof.
  apply (download_files_distributed_failure_blocks
           (fun s : Z => (Raises FileExistsError, s)) 0 3);
    [lia | discriminate].
Defined.

(** X6: when the action returns, the job cannot get stuck half way: from
    every configuration it can reach, it can still reach the one in
    which all ranks have returned. *)
Theorem download_files_distributed_progress {S : Type}
    (download_fn : M S unit) (s0 : S) (n : nat) :
  (1 <= n)%nat ->
  (download_fn s0).1 = Return tt ->
  ∀ c : Distributed.config S,
    Distributed.reachable download_fn (Distributed.group_start n s0) c ->
    ∃ c_end : Distributed.config S,
      Distributed.reachable download_fn c c_end
      ∧ Distributed.all_returned c_end
      ∧ length (Distributed.procs c_end) = n
      ∧ Distributed.shared c_end = (download_fn s0).2.
Proof.
  intros Hn Ho c Hc. destruct n as [|m]; [lia|]. clear Hn.
  rewrite group_start_succ in Hc.
  exists (Distributed.past_barrier download_fn s0 m).
  split; [|split; [|split]].
  - destruct (group_reachable download_fn s0 m c Hc) as [-> | [-> | [_ ->]]].
    + by apply group_completes.
    + eapply rtc_l; [by apply barrier_opens | apply rtc_refl].
    + apply rtc_refl.
  - unfold Distributed.all_returned. cbn [Distributed.procs Distributed.past_barrier].
    apply Forall_replicate. reflexivity.
  - cbn. by rewrite length_replicate.
  - reflexivity.
Qed.

Lemma download_files_distributed_progress_witness :
  ∃ c_end : Distributed.config Z,
    Distributed.reachable (modify Z.succ) (Distributed.group_start 4 10) c_end
    ∧ Distributed.all_returned c_end
    ∧ length (Distributed.procs c_end) = 4%nat
    ∧ Distributed.shared c_end = 11.
Proof.
  apply (download_files_distributed_progress (modify Z.succ) 10 4);
    [lia | reflexivity | apply rtc_refl].
Defined.

(** ** Restoring a capsule *)

Section RestoreMore.
Import Rng BaseCheckpointManager.

(** What the four subscripts of a well-kinded capsule give. *)
Lemma well_kinded_entries (c : gmap string py_value) :
  dom c = list_to_set expected_keys ->
  well_kinded c ->
  ∃ cpu cuda numpy random,
    c !! "cpu" = Some (TorchCpuState cpu)
    ∧ c !! "cuda" = Some (TorchCudaState cuda)
    ∧ c !! "numpy" = Some (NumpyState numpy)
    ∧ c !! "random" = Some (RandomState random).
Proof.
  intros Hdom Hkind.
  assert (Hin : ∀ k, k ∈ expected_keys -> is_Some (c !! k)).
  { intros k Hk. apply elem_of_dom. rewrite Hdom. by apply elem_of_list_to_set. }
  destruct (Hin "cpu") as [v1 H1]; [apply list_elem_of_In; cbn; tauto|].
  destruct (Hin "cuda") as [v2 H2]; [apply list_elem_of_In; cbn; tauto|].
  destruct (Hin "numpy") as [v3 H3]; [apply list_elem_of_In; cbn; tauto|].
  destruct (Hin "random") as [v4 H4]; [apply list_elem_of_In; cbn; tauto|].
  pose proof (Hkind TorchCpu v1 H1) as K1.
  pose proof (Hkind TorchCuda v2 H2) as K2.
  pose proof (Hkind Numpy v3 H3) as K3.
  pose proof (Hkind Random v4 H4) as K4.
  destruct v1; try discriminate. destruct v2; try discriminate.
  destruct v3; try discriminate. destruct v4; try discriminate.
  eauto 10.
Qed.

Lemma four_entries_eq (c : gmap string py_value) (v1 v2 v3 v4 : py_value) :
  dom c = list_to_set expected_keys ->
  c !! "cpu" = Some v1 -> c !! "cuda" = Some v2 ->
  c !! "numpy" = Some v3 -> c !! "random" = Some v4 ->
  <["random" := v4]> (<["numpy" := v3]> (<["cuda" := v2]> (<["cpu" := v1]> ∅)))
  = c.
Proof.
  intros Hdom H1 H2 H3 H4. apply map_eq. intros k.
  destruct (decide (k = "random")) as [->|N4]; [by rewrite lookup_insert_eq|].
  rewrite lookup_insert_ne by done.
  destruct (decide (k = "numpy")) as [->|N3]; [by rewrite lookup_insert_eq|].
  rewrite lookup_insert_ne by done.
  destruct (decide (k = "cuda")) as [->|N2]; [by rewrite lookup_insert_eq|].
  rewrite lookup_insert_ne by done.
  destruct (decide (k = "cpu")) as [->|N1]; [by rewrite lookup_insert_eq|].
  rewrite lookup_insert_ne by done. rewrite lookup_empty. symmetry.
  apply not_elem_of_dom. rewrite Hdom, elem_of_list_to_set.
  intros Hin. apply list_elem_of_In in Hin. cbn in Hin.
  destruct Hin as [H|[H|[H|[H|[]]]]]; congruence.
Qed.
End RestoreMore.

(** X7: restoring a capsule and capturing again gives the capsule back: for
    a dictionary with exactly the four keys, each holding a state of
    its stream, [load_rng_state] followed by [get_rng_state] returns
    that dictionary. *)
Theorem load_then_get_rng_state (c : gmap string Rng.py_value)
    (w : Rng.rng_world) :
  dom c = list_to_set BaseCheckpointManager.expected_keys ->
  Rng.well_kinded c ->
  ((exec BaseCheckpointManager.load_rng_state c;
    BaseCheckpointManager.get_rng_state) w).1 = Return c.
Proof.
  intros Hdom Hkind.
  destruct (well_kinded_entries c Hdom Hkind)
    as (cpu & cuda & numpy & random & H1 & H2 & H3 & H4).
  unfold bind at 1.
  rewrite (load_rng_state_installs c w cpu cuda numpy random) by done.
  rewrite get_rng_state_run. cbn [fst]. f_equal.
  by apply four_entries_eq.
Qed.

Lemma load_then_get_rng_state_witness :
  ((exec BaseCheckpointManager.load_rng_state
           (<["random" := Rng.RandomState [4]]>
            (<["numpy" := Rng.NumpyState [3]]>
             (<["cuda" := Rng.TorchCudaState [2]]>
              (<["cpu" := Rng.TorchCpuState [1]]> ∅))));
    BaseCheckpointManager.get_rng_state)
     {| Rng.torch_cpu := [5]; Rng.torch_cuda := [6];
        Rng.numpy_random := [7]; Rng.python_random := [8] |}).1
  = Return (<["random" := Rng.RandomState [4]]>
            (<["numpy" := Rng.NumpyState [3]]>
             (<["cuda" := Rng.TorchCudaState [2]]>
              (<["cpu" := Rng.TorchCpuState [1]]> ∅)))).
Proof.
  apply load_then_get_rng_state.
  - rewrite !dom_insert_L, dom_empty_L.
    unfold BaseCheckpointManager.expected_keys. cbn. set_solver.
  - intros s v Hv. destruct s; cbn in Hv; vm_compute in Hv;
      injection Hv as <-; reflexivity.
Defined.

(** X8: resuming from a checkpoint: whatever the generators have done since,
    restoring the capsule captured in state [w0] makes every run of
    draws come out as it would have in [w0], numbers and final states
    alike. *)
Theorem restore_replays_draws
    (next : Rng.stream -> Rng.rng_blob -> Z * Rng.rng_blob)
    (w0 w : Rng.rng_world) (schedule : list Rng.stream) :
  ∃ c, BaseCheckpointManager.get_rng_state w0 = (Return c, w0)
    ∧ (exec BaseCheckpointManager.load_rng_state c;
       Rng.draws next schedule) w
      = Rng.draws next schedule w0.
Proof.
  eexists. split; [apply get_rng_state_run|].
  unfold bind at 1.
  rewrite (load_rng_state_installs _ w (Rng.torch_cpu w0) (Rng.torch_cuda w0)
             (Rng.numpy_random w0) (Rng.python_random w0)); try reflexivity.
  by destruct w0.
Qed.

(** X9: [load_rng_state] is not all-or-nothing: when a key is missing, the
    generators whose keys come before it have already been overwritten
    and the others are as they were. *)
Theorem load_rng_state_partial (c : gmap string Rng.py_value)
    (w : Rng.rng_world) (cpu cuda numpy : Rng.rng_blob) :
  c !! "cpu" = Some (Rng.TorchCpuState cpu) ->
  (c !! "cuda" = None ->
   BaseCheckpointManager.load_rng_state c w
   = (Raises (KeyError "cuda"),
      {| Rng.torch_cpu := cpu; Rng.torch_cuda := Rng.torch_cuda w;
         Rng.numpy_random := Rng.numpy_random w;
         Rng.python_random := Rng.python_random w |}))
  ∧ (c !! "cuda" = Some (Rng.TorchCudaState cuda) ->
     c !! "numpy" = None ->
     BaseCheckpointManager.load_rng_state c w
     = (Raises (KeyError "numpy"),
        {| Rng.torch_cpu := cpu; Rng.torch_cuda := cuda;
           Rng.numpy_random := Rng.numpy_random w;
           Rng.python_random := Rng.python_random w |}))
  ∧ (c !! "cuda" = Some (Rng.TorchCudaState cuda) ->
     c !! "numpy" = Some (Rng.NumpyState numpy) ->
     c !! "random" = None ->
     BaseCheckpointManager.load_rng_state c w
     = (Raises (KeyError "random"),
        {| Rng.torch_cpu := cpu; Rng.torch_cuda := cuda;
           Rng.numpy_random := numpy;
           Rng.python_random := Rng.python_random w |})).
Proof.
  intros H1.
  unfold BaseCheckpointManager.load_rng_state, bind, getitem.
  rewrite H1. cbn. split; [|split].
  - intros H2. by rewrite H2.
  - intros H2 H3. rewrite H2. cbn. by rewrite H3.
  - intros H2 H3 H4. rewrite H2. cbn. rewrite H3. cbn. by rewrite H4.
Qed.

Lemma load_rng_state_partial_witness :
  BaseCheckpointManager.load_rng_state
    (<["cpu" := Rng.TorchCpuState [1]]> ∅)
    {| Rng.torch_cpu := [5]; Rng.torch_cuda := [6];
       Rng.numpy_random := [7]; Rng.python_random := [8] |}
  = (Raises (KeyError "cuda"),
     {| Rng.torch_cpu := [1]; Rng.torch_cuda := [6];
        Rng.numpy_random := [7]; Rng.python_random := [8] |}).
Proof.
  apply (load_rng_state_partial (<["cpu" := Rng.TorchCpuState [1]]> ∅)
           {| Rng.torch_cpu := [5]; Rng.torch_cuda := [6];
              Rng.numpy_random := [7]; Rng.python_random := [8] |}
           [1] [] []); reflexivity.
Defined.

(** X10: [load_rng_state] reads the four keys and nothing else: an entry
    under any other key makes no difference to what it does. *)
Theorem load_rng_state_ignores_other_keys (c : gmap string Rng.py_value)
    (w : Rng.rng_world) (k : string) (v : Rng.py_value) :
  k ∉ BaseCheckpointManager.expected_keys ->
  BaseCheckpointManager.load_rng_state (<[k := v]> c) w
  = BaseCheckpointManager.load_rng_state c w.
Proof.
  intros Hk. unfold BaseCheckpointManager.expected_keys in Hk.
  unfold BaseCheckpointManager.load_rng_state, getitem.
  rewrite !lookup_insert_ne by set_solver. reflexivity.
Qed.

Lemma load_rng_state_ignores_other_keys_witness :
  BaseCheckpointManager.load_rng_state
    (<["xpu" := Rng.TorchCudaState [9]]> ∅)
    {| Rng.torch_cpu := [5]; Rng.torch_cuda := [6];
       Rng.numpy_random := [7]; Rng.python_random := [8] |}
  = BaseCheckpointManager.load_rng_state ∅
      {| Rng.torch_cpu := [5]; Rng.torch_cuda := [6];
         Rng.numpy_random := [7]; Rng.python_random := [8] |}.
Proof.
  apply load_rng_state_ignores_other_keys.
  unfold BaseCheckpointManager.expected_keys.
  intros Hin. apply list_elem_of_In in Hin. cbn in Hin.
  destruct Hin as [H|[H|[H|[H|[]]]]]; discriminate.
Defined.

(** ** [local_mkdir]: the resolved path *)

Section ResolvedPath.
Import Os BaseCheckpointManager.

Lemma prefix_empty (s : string) : String.prefix "" s = true.
Proof. by destruct s. Qed.

Lemma prefix_cons (x y : ascii) (s1 s2 : string) :
  String.prefix (String x s1) (String y s2)
  = if ascii_dec x y then String.prefix s1 s2 else false.
Proof. reflexivity. Qed.

Lemma append_cons (c : ascii) (a b : string) :
  String c a +:+ b = String c (a +:+ b).
Proof. reflexivity. Qed.

Lemma prefix_append (a b : string) : String.prefix a (a +:+ b) = true.
Proof.
  induction a as [|c a IH]; [apply prefix_empty|].
  rewrite append_cons, prefix_cons.
  destruct (ascii_dec c c); [apply IH | done].
Qed.

Lemma isabs_append (a b : string) : isabs a = true -> isabs (a +:+ b) = true.
Proof.
  unfold isabs. destruct a as [|c a]; [discriminate|].
  rewrite append_cons, !prefix_cons.
  destruct (ascii_dec "/" c); [|discriminate].
  intros _. apply prefix_empty.
Qed.

Lemma path_join_absolute (a b : string) : isabs b = true -> path_join a b = b.
Proof. intros Hb. unfold path_join. by rewrite Hb. Qed.

Lemma path_join_under (a b : string) :
  isabs b = false -> String.prefix a (path_join a b) = true.
Proof.
  intros Hb. unfold path_join. rewrite Hb.
  destruct (bool_decide (a = "") || ends_with_sep a); apply prefix_append.
Qed.

Lemma isabs_path_join (a b : string) :
  isabs a = true -> isabs (path_join a b) = true.
Proof.
  intros Ha. unfold path_join. destruct (isabs b) eqn:Hb; [done|].
  destruct (bool_decide (a = "") || ends_with_sep a); by apply isabs_append.
Qed.

Lemma isabs_lock_suffix (path : string) :
  isabs (path +:+ ".lock") = isabs path.
Proof.
  destruct path as [|c path]; [reflexivity|].
  unfold isabs. rewrite append_cons, !prefix_cons.
  destruct (ascii_dec "/" c); [|done].
  by rewrite !prefix_empty.
Qed.
End ResolvedPath.

(** X16: an absolute [path] does not go under the temp directory or the
    package directory: with [use_temp_dir] the resolved path is
    [path + ".lock"] itself, without it the resolved path is [path],
    whatever [is_abs] says. *)
Theorem local_mkdir_path_absolute_input (env : Os.os_env) (path : string)
    (is_abs : bool) :
  Os.isabs path = true ->
  BaseCheckpointManager.local_mkdir_path env path true is_abs
    = path +:+ ".lock"
  ∧ BaseCheckpointManager.local_mkdir_path env path false is_abs = path.
Proof.
  intros Habs. unfold BaseCheckpointManager.local_mkdir_path. split.
  - apply path_join_absolute. by rewrite isabs_lock_suffix.
  - destruct is_abs; [done|]. by apply path_join_absolute.
Qed.

Lemma local_mkdir_path_absolute_input_witness :
  BaseCheckpointManager.local_mkdir_path
    {| Os.gettempdir := "/tmp";
       Os.package_dir := "/opt/verl/workers/checkpoint";
       Os.getcwd := "/home/user"; Os.normpath := fun p => p |}
    "/data/ckpt" true false = "/data/ckpt.lock"
  ∧ BaseCheckpointManager.local_mkdir_path
      {| Os.gettempdir := "/tmp";
         Os.package_dir := "/opt/verl/workers/checkpoint";
         Os.getcwd := "/home/user"; Os.normpath := fun p => p |}
      "/data/ckpt" false false = "/data/ckpt".
Proof.
  apply (local_mkdir_path_absolute_input _ "/data/ckpt" false). reflexivity.
Defined.

(** X17: a relative [path] is resolved below the temp directory with
    [use_temp_dir], below the package directory with neither flag, and
    is left relative, as given, with [is_abs] alone. *)
Theorem local_mkdir_path_relative_input (env : Os.os_env) (path : string)
    (is_abs : bool) :
  Os.isabs path = false ->
  String.prefix (Os.gettempdir env)
    (BaseCheckpointManager.local_mkdir_path env path true is_abs) = true
  ∧ String.prefix (Os.package_dir env)
      (BaseCheckpointManager.local_mkdir_path env path false false) = true
  ∧ BaseCheckpointManager.local_mkdir_path env path false true = path.
Proof.
  intros Hrel. unfold BaseCheckpointManager.local_mkdir_path.
  split; [|split; [|done]].
  - apply path_join_under. by rewrite isabs_lock_suffix.
  - by apply path_join_under.
Qed.

Lemma local_mkdir_path_relative_input_witness :
  String.prefix "/tmp"
    (BaseCheckpointManager.local_mkdir_path
       {| Os.gettempdir := "/tmp";
          Os.package_dir := "/opt/verl/workers/checkpoint";
          Os.getcwd := "/home/user"; Os.normpath := fun p => p |}
       "ckpt" true true) = true.
Proof.
  apply (local_mkdir_path_relative_input
           {| Os.gettempdir := "/tmp";
              Os.package_dir := "/opt/verl/workers/checkpoint";
              Os.getcwd := "/home/user"; Os.normpath := fun p => p |}
           "ckpt" true).
  reflexivity.
Defined.

(** X18: the resolved path is absolute whenever the temp directory and the
    package directory are, provided that a caller who sets [is_abs]
    (and not [use_temp_dir]) does pass an absolute path. *)
Theorem local_mkdir_path_is_absolute (env : Os.os_env) (path : string)
    (use_temp_dir is_abs : bool) :
  Os.isabs (Os.gettempdir env) = true ->
  Os.isabs (Os.package_dir env) = true ->
  (use_temp_dir = false -> is_abs = true -> Os.isabs path = true) ->
  Os.isabs (BaseCheckpointManager.local_mkdir_path env path use_temp_dir is_abs)
  = true.
Proof.
  intros Htmp Hpkg Hpath. unfold BaseCheckpointManager.local_mkdir_path.
  destruct use_temp_dir; [by apply isabs_path_join|].
  destruct is_abs; [by apply Hpath | by apply isabs_path_join].
Qed.

Lemma local_mkdir_path_is_absolute_witness :
  Os.isabs
    (BaseCheckpointManager.local_mkdir_path
       {| Os.gettempdir := "/tmp";
          Os.package_dir := "/opt/verl/workers/checkpoint";
          Os.getcwd := "/home/user"; Os.normpath := fun p => p |}
       "run/ckpt" false false) = true.
Proof.
  apply local_mkdir_path_is_absolute; [reflexivity | reflexivity | discriminate].
Defined.

(** ** [local_mkdir]: what it leaves behind *)

(** X14: [local_mkdir] removes nothing and prints nothing: every entry
    that was on disk before the call is there afterwards, a file still a
    file and a directory still a directory. *)
Theorem local_mkdir_removes_nothing (env : Os.os_env) (path : string)
    (use_temp_dir is_abs : bool) (w : Os.fs_world) :
  let run := BaseCheckpointManager.local_mkdir env path use_temp_dir is_abs w in
  Os.nodes w ⊆ Os.nodes run.2 ∧ Os.stdout run.2 = Os.stdout w.
Proof.
  intros run. subst run. unfold BaseCheckpointManager.local_mkdir, bind.
  set (p := BaseCheckpointManager.local_mkdir_path env path use_temp_dir is_abs).
  assert (Hkeep : Os.nodes w !! p ≠ Some Os.Directory ->
                  Os.nodes w ⊆ <[p := Os.RegularFile]> (Os.nodes w)).
  { intros Hd. destruct (Os.nodes w !! p) as [[]|] eqn:Hp.
    - by rewrite insert_id.
    - done.
    - by apply insert_subseteq. }
  destruct (decide (Os.nodes w !! p = Some Os.Directory)) as [Hd|Hd].
  { by rewrite lock_then_makedirs_directory. }
  destruct (decide (p ∈ Os.held w)) as [Hh|Hh].
  - rewrite lock_then_makedirs_held by done. cbn. split; [by apply Hkeep | done].
  - rewrite lock_then_makedirs_free by done. cbn. split; [by apply Hkeep | done].
Qed.

(** X15: the lock is awaited without a timeout: while another holder has the
    lock on the resolved path, [local_mkdir] does not come back; it has
    by then made sure the lock file is there. *)
Theorem local_mkdir_waits_for_lock (env : Os.os_env) (path : string)
    (use_temp_dir is_abs : bool) (w : Os.fs_world) :
  let p := BaseCheckpointManager.local_mkdir_path env path use_temp_dir is_abs in
  p ∈ Os.held w ->
  Os.nodes w !! p ≠ Some Os.Directory ->
  BaseCheckpointManager.local_mkdir env path use_temp_dir is_abs w
  = (Hangs, Os.set_nodes (insert p Os.RegularFile) w).
Proof.
  intros p Hheld Hd. unfold BaseCheckpointManager.local_mkdir, bind.
  fold p. by rewrite lock_then_makedirs_held.
Qed.

Lemma local_mkdir_waits_for_lock_witness :
  BaseCheckpointManager.local_mkdir
    {| Os.gettempdir := "/tmp";
       Os.package_dir := "/opt/verl/workers/checkpoint";
       Os.getcwd := "/home/user"; Os.normpath := fun p => p |}
    "/data/ckpt" false true
    {| Os.nodes := {["/data/ckpt" := Os.RegularFile]};
       Os.held := {["/data/ckpt"]}; Os.stdout := [] |}
  = (Hangs,
     Os.set_nodes (insert "/data/ckpt" Os.RegularFile)
       {| Os.nodes := {["/data/ckpt" := Os.RegularFile]};
          Os.held := {["/data/ckpt"]}; Os.stdout := [] |}).
Proof.
  apply (local_mkdir_waits_for_lock
           {| Os.gettempdir := "/tmp";
              Os.package_dir := "/opt/verl/workers/checkpoint";
              Os.getcwd := "/home/user"; Os.normpath := fun p => p |}
           "/data/ckpt" false true).
  - cbn. by apply elem_of_singleton.
  - cbn. rewrite lookup_singleton_eq. discriminate.
Defined.

Lemma local_mkdir_releases_lock_witness :
  Os.held
    (BaseCheckpointManager.local_mkdir
       {| Os.gettempdir := "/tmp";
          Os.package_dir := "/opt/verl/workers/checkpoint";
          Os.getcwd := "/home/user"; Os.normpath := fun p => p |}
       "/data/ckpt" false true
       {| Os.nodes := ∅; Os.held := {["/data/other"]}; Os.stdout := [] |}).2
  = Os.held {| Os.nodes := ∅; Os.held := {["/data/other"]}; Os.stdout := [] |}.
Proof.
  apply (local_mkdir_releases_lock
           {| Os.gettempdir := "/tmp";
              Os.package_dir := "/opt/verl/workers/checkpoint";
              Os.getcwd := "/home/user"; Os.normpath := fun p => p |}
           "/data/ckpt" false true
           {| Os.nodes := ∅; Os.held := {["/data/other"]}; Os.stdout := [] |}).
  vm_compute. discriminate.
Defined.

Lemma local_mkdir_again_raises_witness :
  let run :=
    BaseCheckpointManager.local_mkdir
      {| Os.gettempdir := "/tmp";
         Os.package_dir := "/opt/verl/workers/checkpoint";
         Os.getcwd := "/home/user"; Os.normpath := fun p => p |}
      "/data/ckpt" false true
      {| Os.nodes := {["/data/ckpt" := Os.RegularFile]};
         Os.held := ∅; Os.stdout := [] |} in
  run.1 = Raises FileExistsError
  ∧ Os.nodes run.2 !! "/data/ckpt" = Some Os.RegularFile.
Proof.
  intros run. subst run.
  destruct (local_mkdir_again_raises
              {| Os.gettempdir := "/tmp";
                 Os.package_dir := "/opt/verl/workers/checkpoint";
                 Os.getcwd := "/home/user"; Os.normpath := fun p => p |}
              "/data/ckpt" false true
              {| Os.nodes := {["/data/ckpt" := Os.RegularFile]};
                 Os.held := ∅; Os.stdout := [] |})
    as (Hraise & Hfile & _).
  - cbn. apply lookup_singleton_eq.
  - cbn. apply not_elem_of_empty.
  - split; [exact Hraise | exact Hfile].
Defined.

(** ** Cleanup of the previous checkpoint, continued *)

Section CleanupMore.
Import Os BaseCheckpointManager.

Local Abbreviation printed env self w :=
  {| nodes := nodes w; held := held w;
     stdout := stdout w
       ++ ["Checkpoint manager remove previous save local path: "
           +:+ abspath env (default "" (previous_save_local_path self))] |}.

Lemma remove_tracked_run (env : os_env) (refused : string -> bool)
    (self : manager) (w : fs_world) :
  truthy (previous_save_local_path self) = true ->
  remove_previous_save_local_path env refused self w
  = match nodes w !! abspath env (default "" (previous_save_local_path self)) with
    | Some _ =>
        rmtree_ignore_errors refused
          (abspath env (default "" (previous_save_local_path self)))
          (printed env self w)
    | None => (Return tt, printed env self w)
    end.
Proof.
  intros Htracked. unfold remove_previous_save_local_path.
  rewrite Htracked. cbn [negb].
  unfold bind, print, modify, path_exists, gets. cbn.
  destruct (nodes w !! _) as [nd|] eqn:Hnd.
  - by rewrite bool_decide_eq_true_2 by eauto.
  - by rewrite bool_decide_eq_false_2 by (intros [? ?]; discriminate).
Qed.

Lemma in_tree_root (p : string) : in_tree p p = true.
Proof. unfold in_tree. by rewrite bool_decide_eq_true_2. Qed.
End CleanupMore.

(** X19: a cleanup that nothing hinders removes the tracked directory, and a
    second call then finds nothing to do: it prints its line again and
    leaves the file system alone (the manager still tracks the path). *)
Theorem remove_previous_save_local_path_twice
    (env : Os.os_env) (refused : string -> bool)
    (self : BaseCheckpointManager.manager) (w : Os.fs_world) :
  let abs_path :=
    Os.abspath env
      (default "" (BaseCheckpointManager.previous_save_local_path self)) in
  let once :=
    (BaseCheckpointManager.remove_previous_save_local_path env refused self w).2 in
  BaseCheckpointManager.truthy
    (BaseCheckpointManager.previous_save_local_path self) = true ->
  (∀ k, refused k = false) ->
  Os.nodes w !! abs_path = Some Os.Directory ->
  Os.nodes once !! abs_path = None
  ∧ BaseCheckpointManager.remove_previous_save_local_path env refused self once
    = (Return tt,
       {| Os.nodes := Os.nodes once; Os.held := Os.held once;
          Os.stdout :=
            Os.stdout once
            ++ ["Checkpoint manager remove previous save local path: "
                +:+ abs_path] |}).
Proof.
  intros abs_path once Htracked Hnone Hdir.
  assert (Hgone : Os.nodes once !! abs_path = None).
  { subst once. rewrite remove_tracked_run by done. fold abs_path.
    rewrite Hdir. apply rmtree_deletes_tree; [done | done | apply in_tree_root]. }
  split; [done|].
  rewrite remove_tracked_run by done. fold abs_path. by rewrite Hgone.
Qed.

Lemma remove_previous_save_local_path_twice_witness :
  Os.nodes
    (BaseCheckpointManager.remove_previous_save_local_path
       {| Os.gettempdir := "/tmp";
          Os.package_dir := "/opt/verl/workers/checkpoint";
          Os.getcwd := "/home/user"; Os.normpath := fun p => p |}
       (fun _ => false)
       {| BaseCheckpointManager.previous_global_step := Some 6;
          BaseCheckpointManager.previous_save_local_path := Some "/data/step_6";
          BaseCheckpointManager.rank := 0 |}
       {| Os.nodes := {["/data/step_6" := Os.Directory]};
          Os.held := ∅; Os.stdout := [] |}).2 !! "/data/step_6" = None.
Proof.
  refine (proj1 (remove_previous_save_local_path_twice
           {| Os.gettempdir := "/tmp";
              Os.package_dir := "/opt/verl/workers/checkpoint";
              Os.getcwd := "/home/user"; Os.normpath := fun p => p |}
           (fun _ => false)
           {| BaseCheckpointManager.previous_global_step := Some 6;
              BaseCheckpointManager.previous_save_local_path := Some "/data/step_6";
              BaseCheckpointManager.rank := 0 |}
           {| Os.nodes := {["/data/step_6" := Os.Directory]};
              Os.held := ∅; Os.stdout := [] |} _ _ _)).
  - reflexivity.
  - reflexivity.
  - cbn. apply lookup_singleton_eq.
Defined.

(** X20: a tracked path that is a regular file, not a directory, is not
    removed: the call prints its line, [rmtree] swallows its error, and
    the file is still there. *)
Theorem remove_previous_save_local_path_keeps_file
    (env : Os.os_env) (refused : string -> bool)
    (self : BaseCheckpointManager.manager) (w : Os.fs_world) :
  let abs_path :=
    Os.abspath env
      (default "" (BaseCheckpointManager.previous_save_local_path self)) in
  BaseCheckpointManager.truthy
    (BaseCheckpointManager.previous_save_local_path self) = true ->
  Os.nodes w !! abs_path = Some Os.RegularFile ->
  BaseCheckpointManager.remove_previous_save_local_path env refused self w
  = (Return tt,
     {| Os.nodes := Os.nodes w; Os.held := Os.held w;
        Os.stdout :=
          Os.stdout w
          ++ ["Checkpoint manager remove previous save local path: "
              +:+ abs_path] |}).
Proof.
  intros abs_path Htracked Hfile.
  rewrite remove_tracked_run by done. fold abs_path. rewrite Hfile.
  unfold Os.rmtree_ignore_errors. cbn [Os.nodes]. by rewrite Hfile.
Qed.

Lemma remove_previous_save_local_path_keeps_file_witness :
  let run :=
    BaseCheckpointManager.remove_previous_save_local_path
      {| Os.gettempdir := "/tmp";
         Os.package_dir := "/opt/verl/workers/checkpoint";
         Os.getcwd := "/home/user"; Os.normpath := fun p => p |}
      (fun _ => false)
      {| BaseCheckpointManager.previous_global_step := Some 6;
         BaseCheckpointManager.previous_save_local_path := Some "/data/ckpt";
         BaseCheckpointManager.rank := 0 |}
      {| Os.nodes := {["/data/ckpt" := Os.RegularFile]};
         Os.held := ∅; Os.stdout := [] |} in
  run.1 = Return tt ∧ Os.nodes run.2 !! "/data/ckpt" = Some Os.RegularFile.
Proof.
  intros run. subst run.
  rewrite remove_previous_save_local_path_keeps_file.
  - split; [reflexivity | apply lookup_singleton_eq].
  - reflexivity.
  - cbn. apply lookup_singleton_eq.
Defined.

(** ** Downloading the parquet files *)

Section BaseName.
Import Os PosixPath.

Lemma has_sep_basename (p : string) : has_sep (basename p) = false.
Proof.
  induction p as [|c p IH]; [reflexivity|].
  cbn [basename]. destruct (has_sep p) eqn:Hp; [apply IH|].
  destruct (bool_decide (c = "/"%char)) eqn:Hc; [apply Hp|].
  cbn [has_sep]. by rewrite Hc, Hp.
Qed.

Lemma no_sep_relative (b : string) : has_sep b = false -> isabs b = false.
Proof.
  unfold isabs. destruct b as [|c b]; [reflexivity|].
  cbn [has_sep]. rewrite prefix_cons. intros Hsep.
  destruct (ascii_dec "/" c) as [<-|]; [|reflexivity].
  by rewrite bool_decide_eq_true_2 in Hsep.
Qed.

Lemma basename_no_sep (b : string) : has_sep b = false -> basename b = b.
Proof.
  destruct b as [|c b]; [reflexivity|]. cbn [has_sep basename].
  intros [Hc Hb]%orb_false_elim. by rewrite Hb, Hc.
Qed.

Lemma has_sep_after_sep (x b : string) :
  ends_with_sep x = true -> has_sep (x +:+ b) = true.
Proof.
  induction x as [|c x IH]; [discriminate|].
  rewrite append_cons. cbn [has_sep ends_with_sep].
  destruct x as [|c' x].
  - intros ->. reflexivity.
  - intros Hx. rewrite (IH Hx). apply orb_true_r.
Qed.

Lemma basename_after_sep (x b : string) :
  has_sep b = false -> ends_with_sep x = true -> basename (x +:+ b) = b.
Proof.
  intros Hb. induction x as [|c x IH]; [discriminate|].
  rewrite append_cons. cbn [basename ends_with_sep].
  destruct x as [|c' x].
  - intros Hc. change ("" +:+ b) with b. by rewrite Hb, Hc.
  - intros Hx. rewrite (has_sep_after_sep _ b Hx). by apply IH.
Qed.

Lemma ends_with_sep_append (a : string) : ends_with_sep (a +:+ "/") = true.
Proof.
  induction a as [|c a IH]; [reflexivity|].
  rewrite append_cons. cbn [ends_with_sep].
  destruct (a +:+ "/") eqn:Ha; [by destruct a | apply IH].
Qed.

Lemma append_assoc (a b c : string) : (a +:+ b) +:+ c = a +:+ (b +:+ c).
Proof.
  induction a as [|x a IH]; [reflexivity|]. rewrite !append_cons. by rewrite IH.
Qed.

Lemma basename_path_join (a b : string) :
  has_sep b = false -> basename (path_join a b) = b.
Proof.
  intros Hb. unfold path_join. rewrite (no_sep_relative b Hb).
  destruct (bool_decide (a = "")) eqn:Ha; cbn [orb].
  - apply bool_decide_eq_true_1 in Ha as ->. by apply basename_no_sep.
  - destruct (ends_with_sep a) eqn:Hs.
    + by apply basename_after_sep.
    + rewrite <- append_assoc. apply basename_after_sep; [done|].
      apply ends_with_sep_append.
Qed.
End BaseName.

(** X21: the cached copy of a file lies in [cache_dir] and keeps the file's
    name. *)
Theorem dst_of_in_cache_dir (cache_dir parquet_file : string) :
  String.prefix cache_dir (Download.dst_of cache_dir parquet_file) = true
  ∧ PosixPath.basename (Download.dst_of cache_dir parquet_file)
    = PosixPath.basename parquet_file.
Proof.
  unfold Download.dst_of. split.
  - apply path_join_under, no_sep_relative, has_sep_basename.
  - apply basename_path_join, has_sep_basename.
Qed.

Section DownloadLoop.
Import Os Distributed PosixPath Download.
Variable is_non_local : string -> bool.
Variable copy : string -> string -> M fs_world unit.
Variable cache_dir : string.

Local Abbreviation loop := (download_loop is_non_local copy cache_dir).
Local Abbreviation one := (download_one is_non_local copy cache_dir).
Local Abbreviation dst := (dst_of cache_dir).
Local Abbreviation loc := (localized is_non_local cache_dir).

Lemma set_file_middle (pre todo : list string) (f x : string) :
  <[length pre := x]> (pre ++ f :: todo) = (pre ++ [x]) ++ todo.
Proof.
  rewrite insert_app_r_alt by lia. rewrite Nat.sub_diag. cbn.
  by rewrite <- app_assoc.
Qed.

(** One iteration, when [copy] comes back. *)
Lemma download_one_returns (pre todo : list string) (f : string)
    (w : dl_world) :
  (∀ src d p, (copy src d p).1 = Return tt) ->
  parquet_files w = pre ++ f :: todo ->
  ∃ w', one (length pre) f w = (Done tt, w')
      ∧ parquet_files w' = (pre ++ [loc f]) ++ todo.
Proof.
  intros Hcopy Hfiles. unfold download_one, localized.
  destruct (is_non_local f); [|eexists; split; [reflexivity|]].
  2: { rewrite Hfiles. by rewrite <- app_assoc. }
  unfold dbind, on_disk at 1, path_exists, gets.
  destruct (bool_decide (is_Some (nodes (disk w) !! dst f))); cbn [negb].
  - eexists. split; [reflexivity|]. cbn. rewrite Hfiles. apply set_file_middle.
  - unfold on_disk. cbn [disk parquet_files].
    pose proof (Hcopy f (dst f) (disk w)) as Hret.
    destruct (copy f (dst f) (disk w)) as [o d]. cbn in Hret. subst o.
    eexists. split; [reflexivity|]. cbn. rewrite Hfiles. apply set_file_middle.
Qed.

Lemma download_loop_returns (todo pre : list string) (w : dl_world) :
  (∀ src d p, (copy src d p).1 = Return tt) ->
  parquet_files w = pre ++ todo ->
  ∃ w', loop (length todo) (length pre) w = (Done tt, w')
      ∧ parquet_files w' = pre ++ (loc <$> todo).
Proof.
  intros Hcopy. revert pre w.
  induction todo as [|f todo IH]; intros pre w Hfiles.
  - exists w. split; [reflexivity|]. by rewrite Hfiles.
  - cbn [length download_loop]. rewrite Hfiles.
    rewrite lookup_app_r by lia. rewrite Nat.sub_diag. cbn [lookup list_lookup].
    destruct (download_one_returns pre todo f w Hcopy Hfiles) as (w1 & Hone & Hw1).
    unfold dbind. rewrite Hone.
    destruct (IH (pre ++ [loc f]) w1 Hw1) as (w2 & Hloop & Hw2).
    rewrite length_app in Hloop. cbn in Hloop.
    replace (length pre + 1)%nat with (Datatypes.S (length pre)) in Hloop by lia.
    exists w2. split; [done|]. rewrite Hw2. by rewrite <- app_assoc.
Qed.

(** The loop when every destination is on disk already: [copy] is not
    reached. *)
Lemma download_loop_cached (todo pre : list string) (w : dl_world) :
  parquet_files w = pre ++ todo ->
  (∀ f, f ∈ todo -> is_non_local f = true ->
        is_Some (nodes (disk w) !! dst f)) ->
  loop (length todo) (length pre) w
  = (Done tt, {| parquet_files := pre ++ (loc <$> todo); disk := disk w |}).
Proof.
  revert pre w. induction todo as [|f todo IH]; intros pre w Hfiles Hcached.
  - rewrite fmap_nil, <- Hfiles. cbn. by destruct w.
  - cbn [length download_loop]. rewrite Hfiles.
    rewrite lookup_app_r by lia. rewrite Nat.sub_diag. cbn [lookup list_lookup].
    assert (Hone : one (length pre) f w
                   = (Done tt, {| parquet_files := (pre ++ [loc f]) ++ todo;
                                  disk := disk w |})).
    { unfold download_one, localized. destruct (is_non_local f) eqn:Hf.
      - unfold dbind, on_disk, path_exists, gets. cbn.
        rewrite bool_decide_eq_true_2
          by (apply Hcached; [apply list_elem_of_here | done]).
        cbn. unfold set_file. cbn. rewrite Hfiles. do 2 f_equal.
        apply set_file_middle.
      - unfold dret. rewrite <- app_assoc. cbn. rewrite <- Hfiles.
        by destruct w. }
    unfold dbind. rewrite Hone.
    replace (Datatypes.S (length pre)) with (length (pre ++ [loc f]))
      by (rewrite length_app; cbn; lia).
    rewrite IH; [|reflexivity|].
    + cbn. by rewrite <- app_assoc.
    + intros g Hg. apply Hcached. by apply list_elem_of_further.
Qed.

(** The loop has no [assert] of its own. *)
Lemma download_loop_no_assertion (n i : nat) (w : dl_world) :
  (loop n i w).1 ≠ Fails AssertionError.
Proof.
  revert i w. induction n as [|n IH]; intros i w; [discriminate|].
  cbn [download_loop]. destruct (parquet_files w !! i) as [f|]; [|discriminate].
  unfold dbind. destruct (one i f w) as [[[]|s|] w1] eqn:Hone.
  - apply IH.
  - cbn. intros [= ->]. revert Hone. unfold download_one.
    destruct (is_non_local f); [|discriminate].
    unfold dbind, on_disk, path_exists, gets. cbn.
    destruct (bool_decide _); cbn; [discriminate|].
    destruct (copy f (dst f) (disk w)) as [[| |] d]; discriminate.
  - discriminate.
Qed.

(** Up to the loop: [os.makedirs] and the [assert]. *)
Lemma download_files_prelude (w : dl_world) :
  nodes (disk w) !! cache_dir ≠ Some RegularFile ->
  _download_files is_non_local copy cache_dir w
  = loop (length (parquet_files w)) 0
      {| parquet_files := parquet_files w;
         disk := (makedirs cache_dir true (disk w)).2 |}.
Proof.
  intros Hnofile. unfold _download_files, dbind, on_disk, makedirs.
  destruct (nodes (disk w) !! cache_dir) as [[]|] eqn:Hc; [done| |].
  - cbn. rewrite bool_decide_eq_true_2 by (rewrite Hc; eauto). reflexivity.
  - cbn. rewrite bool_decide_eq_true_2
      by (rewrite lookup_insert_eq; eauto).
    reflexivity.
Qed.
End DownloadLoop.

(** X22: when [cache_dir] is there as a directory and [copy] comes back
    whenever it is called, [_download_files] returns, and it has
    rewritten the list in place: every non-local entry now names its
    copy in [cache_dir], every local entry is untouched, and the list
    has its old length and order. *)
Theorem download_files_localizes (is_non_local : string -> bool)
    (copy : string -> string -> M Os.fs_world unit) (cache_dir : string)
    (w : Download.dl_world) :
  (∀ src dst d, (copy src dst d).1 = Return tt) ->
  cache_dir ≠ "" ->
  Os.nodes (Download.disk w) !! cache_dir = Some Os.Directory ->
  ∃ w', Download._download_files is_non_local copy cache_dir w
        = (Download.Done tt, w')
    ∧ Download.parquet_files w'
      = Download.localized is_non_local cache_dir <$> Download.parquet_files w
    ∧ length (Download.parquet_files w') = length (Download.parquet_files w).
Proof.
  intros Hcopy _ Hdir. rewrite download_files_prelude by congruence.
  destruct (download_loop_returns is_non_local copy cache_dir
              (Download.parquet_files w) []
              {| Download.parquet_files := Download.parquet_files w;
                 Download.disk := (Os.makedirs cache_dir true (Download.disk w)).2 |}
              Hcopy eq_refl) as (w' & Hrun & Hfiles).
  exists w'. split; [exact Hrun|]. split; [exact Hfiles|].
  rewrite Hfiles. cbn. by rewrite length_fmap.
Qed.

Lemma download_files_localizes_witness :
  ∃ w', Download._download_files (String.prefix "hdfs://")
          Download.copy_to_disk "/home/user/.cache/verl/rm"
          {| Download.parquet_files :=
               ["hdfs://data/gsm8k/train.parquet"; "/mnt/local/test.parquet"];
             Download.disk :=
               {| Os.nodes := {["/home/user/.cache/verl/rm" := Os.Directory]};
                  Os.held := ∅; Os.stdout := [] |} |}
        = (Download.Done tt, w')
    ∧ Download.parquet_files w'
      = ["/home/user/.cache/verl/rm/train.parquet"; "/mnt/local/test.parquet"].
Proof.
  destruct (download_files_localizes (String.prefix "hdfs://")
              Download.copy_to_disk "/home/user/.cache/verl/rm"
              {| Download.parquet_files :=
                   ["hdfs://data/gsm8k/train.parquet"; "/mnt/local/test.parquet"];
                 Download.disk :=
                   {| Os.nodes := {["/home/user/.cache/verl/rm" := Os.Directory]};
                      Os.held := ∅; Os.stdout := [] |} |})
    as (w' & Hrun & Hfiles & _).
  - reflexivity.
  - discriminate.
  - cbn. apply lookup_singleton_eq.
  - exists w'. split; [exact Hrun | exact Hfiles].
Defined.

(** X23: files already in the cache are not fetched again: when [cache_dir]
    is there and every non-local entry has its copy on disk,
    [_download_files] rewrites the list and leaves the disk as it is,
    whatever [copy] would have done. *)
Theorem download_files_cached (is_non_local : string -> bool)
    (copy : string -> string -> M Os.fs_world unit) (cache_dir : string)
    (w : Download.dl_world) :
  Os.nodes (Download.disk w) !! cache_dir = Some Os.Directory ->
  (∀ f, f ∈ Download.parquet_files w -> is_non_local f = true ->
        is_Some (Os.nodes (Download.disk w) !! Download.dst_of cache_dir f)) ->
  Download._download_files is_non_local copy cache_dir w
  = (Download.Done tt,
     {| Download.parquet_files :=
          Download.localized is_non_local cache_dir <$> Download.parquet_files w;
        Download.disk := Download.disk w |}).
Proof.
  intros Hdir Hcached. rewrite download_files_prelude by congruence.
  assert (Hdisk : (Os.makedirs cache_dir true (Download.disk w)).2
                  = Download.disk w)
    by (unfold Os.makedirs; by rewrite Hdir).
  rewrite Hdisk.
  apply (download_loop_cached is_non_local copy cache_dir
           (Download.parquet_files w) []
           {| Download.parquet_files := Download.parquet_files w;
              Download.disk := Download.disk w |}); done.
Qed.

Lemma download_files_cached_witness :
  Download._download_files (String.prefix "hdfs://")
    (fun _ _ d => (Raises FileExistsError, d)) "/cache"
    {| Download.parquet_files := ["hdfs://data/train.parquet"];
       Download.disk :=
         {| Os.nodes := <["/cache/train.parquet" := Os.RegularFile]>
                          {["/cache" := Os.Directory]};
            Os.held := ∅; Os.stdout := [] |} |}
  = (Download.Done tt,
     {| Download.parquet_files :=
          Download.localized (String.prefix "hdfs://") "/cache"
            <$> ["hdfs://data/train.parquet"];
        Download.disk :=
          {| Os.nodes := <["/cache/train.parquet" := Os.RegularFile]>
                           {["/cache" := Os.Directory]};
             Os.held := ∅; Os.stdout := [] |} |}).
Proof.
  apply (download_files_cached (String.prefix "hdfs://")
           (fun _ _ d => (Raises FileExistsError, d)) "/cache"
           {| Download.parquet_files := ["hdfs://data/train.parquet"];
              Download.disk :=
                {| Os.nodes := <["/cache/train.parquet" := Os.RegularFile]>
                                 {["/cache" := Os.Directory]};
                   Os.held := ∅; Os.stdout := [] |} |}).
  - reflexivity.
  - intros f Hf _. apply list_elem_of_In in Hf. cbn in Hf.
    destruct Hf as [<-|[]]. eexists. reflexivity.
Defined.

(** X24: the [assert] after [os.makedirs] never fails: whenever
    [_download_files] stops, it is on an exception of [os.makedirs] or
    of [copy]. *)
Theorem download_files_assert_holds (is_non_local : string -> bool)
    (copy : string -> string -> M Os.fs_world unit) (cache_dir : string)
    (w : Download.dl_world) :
  (Download._download_files is_non_local copy cache_dir w).1
  ≠ Download.Fails Download.AssertionError.
Proof.
  destruct (decide (Os.nodes (Download.disk w) !! cache_dir
                    = Some Os.RegularFile)) as [Hfile|Hnofile].
  - unfold Download._download_files, Download.dbind, Download.on_disk,
      Os.makedirs. rewrite Hfile. discriminate.
  - rewrite download_files_prelude by done. apply download_loop_no_assertion.
Qed.

(** X25: when a regular file is in the place of [cache_dir], the download
    stops at once with [FileExistsError]; nothing is copied and the
    list is not rewritten. *)
Theorem download_files_cache_dir_is_file (is_non_local : string -> bool)
    (copy : string -> string -> M Os.fs_world unit) (cache_dir : string)
    (w : Download.dl_world) :
  Os.nodes (Download.disk w) !! cache_dir = Some Os.RegularFile ->
  Download._download_files is_non_local copy cache_dir w
  = (Download.Fails (Download.Builtin FileExistsError), w).
Proof.
  intros Hfile.
  unfold Download._download_files, Download.dbind, Download.on_disk,
    Os.makedirs. rewrite Hfile. by destruct w.
Qed.

Lemma download_files_cache_dir_is_file_witness :
  Download._download_files (String.prefix "hdfs://") Download.copy_to_disk
    "/cache"
    {| Download.parquet_files := ["hdfs://data/train.parquet"];
       Download.disk := {| Os.nodes := {["/cache" := Os.RegularFile]};
                           Os.held := ∅; Os.stdout := [] |} |}
  = (Download.Fails (Download.Builtin FileExistsError),
     {| Download.parquet_files := ["hdfs://data/train.parquet"];
        Download.disk := {| Os.nodes := {["/cache" := Os.RegularFile]};
                            Os.held := ∅; Os.stdout := [] |} |}).
Proof.
  apply download_files_cache_dir_is_file. cbn. apply lookup_singleton_eq.
Defined.

Section DownloadGate.
Import Os Distributed PosixPath Download.

Lemma dbind_dret_r (m : D unit) (w : dl_world) :
  (exec! m; dret tt) w = m w.
Proof. unfold dbind, dret. by destruct (m w) as [[[]| |] w']. Qed.
End DownloadGate.

(** X26: in a process group a rank other than 0 runs nothing of
    [_download_files]: its [_download] is the wait in the barrier and
    ends as the barrier ends, and since the barrier does not touch the
    process's own list, [self.parquet_files] is never rewritten there:
    it still names the non-local files. *)
Theorem download_only_where_called (is_non_local : string -> bool)
    (copy : string -> string -> M Os.fs_world unit) (cache_dir : string)
    (barrier : Download.D unit)
    (d : Distributed.dist) (w : Download.dl_world) :
  Distributed.is_initialized d = true ->
  Distributed.get_rank d ≠ 0 ->
  (∀ w0, Download.parquet_files (barrier w0).2 = Download.parquet_files w0) ->
  Download._download is_non_local copy cache_dir barrier d w = barrier w
  ∧ Download.parquet_files
      (Download._download is_non_local copy cache_dir barrier d w).2
    = Download.parquet_files w.
Proof.
  intros Hinit Hrank Hkeeps.
  assert (Hrun : Download._download is_non_local copy cache_dir barrier d w
                 = barrier w).
  { unfold Download._download, Distributed.download_files_distributed.
    rewrite Hinit. destruct (Z.eqb_spec (Distributed.get_rank d) 0); [done|].
    cbn [app Download.run_body]. apply dbind_dret_r. }
  split; [exact Hrun|]. rewrite Hrun. apply Hkeeps.
Qed.

Lemma download_only_where_called_witness :
  Download.parquet_files
    (Download._download (String.prefix "hdfs://") Download.copy_to_disk
       "/cache"
       (Download.on_disk
          (modify (Os.set_nodes (insert "/cache/train.parquet" Os.RegularFile))))
       {| Distributed.is_initialized := true; Distributed.get_rank := 1 |}
       {| Download.parquet_files := ["hdfs://data/train.parquet"];
          Download.disk :=
            {| Os.nodes := ∅; Os.held := ∅; Os.stdout := [] |} |}).2
  = ["hdfs://data/train.parquet"].
Proof.
  refine (proj2 (download_only_where_called (String.prefix "hdfs://")
            Download.copy_to_disk "/cache"
            (Download.on_disk
               (modify (Os.set_nodes
                          (insert "/cache/train.parquet" Os.RegularFile))))
            {| Distributed.is_initialized := true; Distributed.get_rank := 1 |}
            {| Download.parquet_files := ["hdfs://data/train.parquet"];
               Download.disk :=
                 {| Os.nodes := ∅; Os.held := ∅; Os.stdout := [] |} |}
            _ _ _)).
  - reflexivity.
  - discriminate.
  - intros w0. reflexivity.
Defined.


